(** * minigo [main.py]: the data lifecycle and the GTP session loop

    A shallow embedding of the command entry points of [main.py]
    ([gtp], [train_dir], [train], [selfplay], [gather]) together with the
    Python primitives they rely on (string splitting and joining, slices,
    [os.path.join], [sorted], sets of paths).

    Conventions.
    - A Python [str] is a [string]; every character is a code point below
      256 and is ordered by its code, as Python orders strings.
    - A Python [set] of paths is a [gset string], a [dict] keyed by strings
      is a [gmap string _].
    - The collaborators that live outside [main.py] (the GTP engine, the
      record codec, the shuffler, the file system listing) are parameters
      of the sections that use them.
    - [print] calls and the [timer] context manager only log; they are
      left out except in [train], where the arguments of [print] can
      raise. *)

From Stdlib Require Import ZArith QArith Ascii String DecimalString.
From stdpp Require Import base tactics option list sorting gmap strings.

Local Open Scope string_scope.
Local Open Scope Z_scope.
Local Open Scope list_scope.

(** ** Exceptions raised on the paths that are modelled *)

Inductive Exn : Set :=
  | IndexError
  | ValueError
  | EOFError
  | UnicodeDecodeError.

(** ** Python primitives *)

Module Py.

(** [l[start:]], with the index adjusted as CPython does: a negative
    start counts from the end and is clipped at 0, a positive start is
    clipped at [len(l)]. *)
Definition slice_from {A} (start : Z) (l : list A) : list A :=
  let len := Z.of_nat (length l) in
  let lo := if start <? 0 then Z.max (start + len) 0 else Z.min start len in
  drop (Z.to_nat lo) l.

(** [sorted(l)] on a list of [str]: ascending in the code point order. *)
Definition sorted (l : list string) : list string :=
  merge_sort String.le l.

(** [str.isspace] for one character (code points below 256). *)
Definition isspace (c : ascii) : bool :=
  let n := N_of_ascii c in
  (((9 <=? n) && (n <=? 13)) || ((28 <=? n) && (n <=? 32))
   || (n =? 133) || (n =? 160))%N.

Definition cons_word (w : string) (ws : list string) : list string :=
  match w with
  | "" => ws
  | _ => w :: ws
  end.

(** One pass of [s.split()]: the run of non-blank characters that starts
    [s] (empty when [s] starts with a blank), and the words after it. *)
Fixpoint scan_words (s : string) : string * list string :=
  match s with
  | "" => ("", [])
  | String c s' =>
      let '(w, ws) := scan_words s' in
      if isspace c then ("", cons_word w ws) else (String c w, ws)
  end.

(** [s.split()]: the maximal runs of non-blank characters of [s]. *)
Definition split_ws (s : string) : list string :=
  let '(w, ws) := scan_words s in cons_word w ws.

Fixpoint has_space (s : string) : bool :=
  match s with
  | "" => false
  | String c s' => isspace c || has_space s'
  end.

(** A non-empty string without blanks: what [split()] returns, and what
    it returns unchanged. *)
Definition is_word (w : string) : Prop := w <> "" /\ has_space w = false.

Fixpoint contains_char (c : ascii) (s : string) : bool :=
  match s with
  | "" => false
  | String a s' => Ascii.eqb a c || contains_char c s'
  end.

Fixpoint is_prefix (p s : string) : bool :=
  match p, s with
  | "", _ => true
  | String a p', String b s' => Ascii.eqb a b && is_prefix p' s'
  | String _ _, "" => false
  end.

(** [skip] counts the characters of a separator occurrence that are
    still to be dropped.  The result is the field that starts [s] and
    the fields after it. *)
Fixpoint split_fields (sep : string) (skip : nat) (s : string)
  : string * list string :=
  match s with
  | "" => ("", [])
  | String c s' =>
      match skip with
      | S k => split_fields sep k s'
      | O =>
          if is_prefix sep s then
            let '(w, ws) := split_fields sep (Nat.pred (String.length sep)) s' in
            ("", w :: ws)
          else
            let '(w, ws) := split_fields sep O s' in
            (String c w, ws)
      end
  end.

(** [s.split(sep)]: raises [ValueError] on an empty separator. *)
Definition split (sep s : string) : Exn + list string :=
  match sep with
  | "" => inl ValueError
  | _ => let '(w, ws) := split_fields sep O s in inr (w :: ws)
  end.

(** [sep.join(l)]. *)
Fixpoint join (sep : string) (l : list string) : string :=
  match l with
  | [] => ""
  | [x] => x
  | x :: l' => x +:+ sep +:+ join sep l'
  end.

Fixpoint lstrip (c : ascii) (s : string) : string :=
  match s with
  | "" => ""
  | String a s' => if Ascii.eqb a c then lstrip c s' else s
  end.

Fixpoint rstrip (c : ascii) (s : string) : string :=
  match s with
  | "" => ""
  | String a s' =>
      match rstrip c s' with
      | "" => if Ascii.eqb a c then "" else String a ""
      | r => String a r
      end
  end.

(** [s.strip(c)] for a one-character argument. *)
Definition strip (c : ascii) (s : string) : string :=
  lstrip c (rstrip c s).

Fixpoint last_char (s : string) : option ascii :=
  match s with
  | "" => None
  | String a s' =>
      match last_char s' with
      | None => Some a
      | r => r
      end
  end.

Definition endswith_slash (s : string) : bool :=
  match last_char s with
  | Some c => Ascii.eqb c "/"
  | None => false
  end.

(** One step of [posixpath.join]: an absolute component replaces what
    came before it, otherwise it is appended after a single slash. *)
Definition path_join2 (path b : string) : string :=
  if is_prefix "/" b then b
  else if orb (String.eqb path "") (endswith_slash path) then path +:+ b
  else path +:+ "/" +:+ b.

(** [os.path.join(a, *p)]. *)
Definition path_join (a : string) (p : list string) : string :=
  foldl path_join2 a p.

(** [str(i)] for a non-negative [int]. *)
Definition str_of_nat (i : nat) : string :=
  NilZero.string_of_uint (Nat.to_uint i).

(** [str(z)] for an [int]. *)
Definition str_of_Z (z : Z) : string :=
  NilZero.string_of_int (Z.to_int z).

End Py.

(** ** The file system as [tensorflow.gfile] shows it

    [ListDirectory] and [Glob] are answered by the storage backend; the
    commands below only see their results. *)

Record GFile := {
  ListDirectory : string -> list string;
  Glob : string -> list string
}.

(** ** Training window: [train_dir] and [train] *)

Definition EXAMPLES_PER_RECORD : Z := 10000.
Definition WINDOW_SIZE : Z := 125000000.

Inductive TrainEvent :=
  | PrintTrainingOn (first last : string)
  | DualNetTrain (working_dir : string) (tf_records : list string) (generation_num : Z)
  | ExportModel (working_dir model_save_path : string)
  | FreezeGraph (model_save_path : string).

(** [train]: the arguments of [print] index the list at [0] and [-1]
    before anything else happens. *)
Definition train (working_dir : string) (tf_records : list string)
    (model_save_path : string) (generation_num : Z) : Exn + list TrainEvent :=
  match tf_records !! 0%nat, last tf_records with
  | Some first, Some lst =>
      inr [PrintTrainingOn first lst;
           DualNetTrain working_dir tf_records generation_num;
           ExportModel working_dir model_save_path;
           FreezeGraph model_save_path]
  | _, _ => inl IndexError
  end.

(** The two assignments to [tf_records] in [train_dir]. *)
Definition train_dir_records (fs : GFile) (chunk_dir : string) : list string :=
  let tf_records := Py.sorted (Glob fs (Py.path_join chunk_dir ["*.tfrecord.zz"])) in
  Py.slice_from (-1 * (WINDOW_SIZE / EXAMPLES_PER_RECORD)) tf_records.

Definition train_dir (fs : GFile) (working_dir chunk_dir model_save_path : string)
    (generation_num : Z) : Exn + list TrainEvent :=
  train working_dir (train_dir_records fs chunk_dir) model_save_path generation_num.

(** ** The GTP session loop: [gtp] *)

(** The one-character string that separates embedded commands. *)
Definition NL : string := String "010"%char "".

(** What one call of [input()] yields: a line, or bytes that do not
    decode.  A script that has run out stands for a closed channel. *)
Inductive Input :=
  | Line (inpt : string)
  | Undecodable.

Inductive GtpEvent :=
  | StderrWrite (s : string)
  | StderrFlush
  | ReadLine (inpt : string)
  | ReadRaises (e : Exn)
  | EngineSend (cmd : string)
  | StdoutWrite (engine_reply : string)
  | StdoutFlush.

Inductive Outcome :=
  | Returned
  | Raised (e : Exn).

Record GtpRun (Engine : Type) := {
  trace : list GtpEvent;
  outcome : Outcome;
  engine_end : Engine
}.
Arguments trace {Engine} _.
Arguments outcome {Engine} _.
Arguments engine_end {Engine} _.

(** The [try]/[except] around [inpt.split("\n")]. *)
Definition cmd_list_of (inpt : string) : list string :=
  match Py.split NL inpt with
  | inr cmd_list => cmd_list
  | inl _ => [inpt]
  end.

Section ProtocolLoop.
Context {Engine : Type}.
(** [engine.send(cmd)]: the reply, and the engine after the command. *)
Variable send : Engine -> string -> string * Engine.
(** [engine.disconnect]. *)
Variable disconnect : Engine -> bool.

(** The [for cmd in cmd_list] loop. *)
Fixpoint dispatch (engine : Engine) (cmd_list : list string)
  : list GtpEvent * Engine :=
  match cmd_list with
  | [] => ([], engine)
  | cmd :: rest =>
      let '(engine_reply, engine1) := send engine cmd in
      let '(tr, engine2) := dispatch engine1 rest in
      (EngineSend cmd :: StdoutWrite engine_reply :: StdoutFlush :: tr, engine2)
  end.

(** The [while not engine.disconnect] loop, over what [input()] will
    yield.  [input()] stands outside the [try]: what it raises leaves
    the loop. *)
Fixpoint gtp_loop (engine : Engine) (stdin : list Input) : GtpRun Engine :=
  if disconnect engine then
    {| trace := []; outcome := Returned; engine_end := engine |}
  else
    match stdin with
    | [] =>
        {| trace := [ReadRaises EOFError]; outcome := Raised EOFError;
           engine_end := engine |}
    | Undecodable :: _ =>
        {| trace := [ReadRaises UnicodeDecodeError];
           outcome := Raised UnicodeDecodeError; engine_end := engine |}
    | Line inpt :: stdin' =>
        let '(tr, engine1) := dispatch engine (cmd_list_of inpt) in
        let r := gtp_loop engine1 stdin' in
        {| trace := ReadLine inpt :: tr ++ trace r;
           outcome := outcome r;
           engine_end := engine_end r |}
    end.

(** [gtp], from the engine that [make_gtp_instance] returned. *)
Definition gtp (engine : Engine) (stdin : list Input) : GtpRun Engine :=
  let r := gtp_loop engine stdin in
  {| trace := StderrWrite ("GTP engine ready" +:+ NL) :: StderrFlush :: trace r;
     outcome := outcome r;
     engine_end := engine_end r |}.

(** The engine seen as a transducer: its replies to a sequence of
    commands, and the engine after them. *)
Fixpoint replies (engine : Engine) (cmds : list string) : list string :=
  match cmds with
  | [] => []
  | cmd :: rest => (send engine cmd).1 :: replies (send engine cmd).2 rest
  end.

Definition engine_after (engine : Engine) (cmds : list string) : Engine :=
  foldl (fun e cmd => (send e cmd).2) engine cmds.

(** A command, its reply and the flush, for each command in turn. *)
Definition exchange (cmds : list string) (rs : list string) : list GtpEvent :=
  flat_map (fun cr => [EngineSend cr.1; StdoutWrite cr.2; StdoutFlush])
           (zip cmds rs).

End ProtocolLoop.

(** The commands the engine received, in the order of the trace. *)
Definition sent (tr : list GtpEvent) : list string :=
  omap (fun ev => match ev with EngineSend cmd => Some cmd | _ => None end) tr.

(** The replies written to the output, in the order of the trace. *)
Definition written (tr : list GtpEvent) : list string :=
  omap (fun ev => match ev with StdoutWrite r => Some r | _ => None end) tr.

(** ** One self-play game: [selfplay] *)

(** [random.random()] draws from a generator; a draw is the rational that
    the float denotes.  [time.time()] and [socket.gethostname()] are read
    once. *)
Record Env := {
  draws : nat -> Q;
  next_draw : nat;
  unix_time : Z;
  hostname : string
}.

Definition random (env : Env) : Q * Env :=
  (draws env (next_draw env),
   {| draws := draws env; next_draw := S (next_draw env);
      unix_time := unix_time env; hostname := hostname env |}).

(** [x < y] on floats, as the comparison of the rationals. *)
Definition float_lt (x y : Q) : bool := negb (Qle_bool y x).

(** The float that the literal [0.05] denotes. *)
Definition holdout_pct_default : Q := 3602879701896397 # 72057594037927936.

Section Selfplay.
Context {Example : Type}.

(** What the played game gives: [player.to_sgf(use_comments=False)],
    [player.to_sgf()] and the examples that
    [make_dataset_from_selfplay(player.extract_data())] builds. *)
Record Played := {
  sgf_clean : string;
  sgf_full : string;
  tf_examples : list Example
}.

Inductive SelfplayEvent :=
  | EnsureDirExists (dir : string)
  | WriteSgf (path content : string)
  | WriteTfExamplesTo (fname : string) (examples : list Example).

Definition selfplay (played : Played) (env : Env)
    (output_dir holdout_dir output_sgf : string) (holdout_pct : Q)
  : list SelfplayEvent * Env :=
  let clean_sgf := Py.path_join output_sgf ["clean"] in
  let full_sgf := Py.path_join output_sgf ["full"] in
  let output_name := Py.str_of_Z (unix_time env) +:+ "-" +:+ hostname env in
  let '(r, env1) := random env in
  let fname :=
    if float_lt r holdout_pct
    then Py.path_join holdout_dir [output_name +:+ ".tfrecord.zz"]
    else Py.path_join output_dir [output_name +:+ ".tfrecord.zz"] in
  ([EnsureDirExists clean_sgf; EnsureDirExists full_sgf;
    EnsureDirExists output_dir; EnsureDirExists holdout_dir;
    WriteSgf (Py.path_join clean_sgf [output_name +:+ ".sgf"]) (sgf_clean played);
    WriteSgf (Py.path_join full_sgf [output_name +:+ ".sgf"]) (sgf_full played);
    WriteTfExamplesTo fname (tf_examples played)],
   env1).


(** The example files a run wrote. *)
Definition example_files (evs : list SelfplayEvent)
  : list (string * list Example) :=
  omap (fun ev => match ev with
                  | WriteTfExamplesTo f xs => Some (f, xs)
                  | _ => None
                  end) evs.

End Selfplay.
Arguments Played : clear implicits.
Arguments SelfplayEvent : clear implicits.

(** ** The windowed aggregator: [gather] *)

(** Files of the output side, by path.  [tf.errors.NotFoundError] is a
    path without a file. *)
Abbreviation Store := (gmap string string).

(** [(model_name, record_files)], an item of [model_gamedata]. *)
Abbreviation Item := (string * list string)%type.

(** Items are compared as Python compares the tuples: by the model name
    (the keys of a dict are distinct, so the lists never decide). *)
Definition item_le (x y : Item) : Prop := String.le x.1 y.1.

#[global] Instance item_le_dec : RelDecision item_le :=
  fun x y => decide (String.le x.1 y.1).

Section Gather.
Context {Batch : Type}.
(** [preprocessing.shuffle_tf_examples(examples_per_record, record_files)],
    with the batches it yields in a list. *)
Variable shuffle_tf_examples : Z -> list string -> list Batch.
(** The bytes [preprocessing.write_tf_examples] puts in a chunk file. *)
Variable chunk_bytes : Batch -> string.

(** The steps by which [gather] changes the output side.  A file object
    opened with mode ['w'] touches nothing until [f.write], which creates
    the file or empties it and then adds the data; nothing is written
    under another name and renamed. *)
Inductive FsOp :=
  | WriteTfExamples (output_record : string) (example_batch : Batch)
  | OpenW (path : string)
  | FWrite (path data : string)
  | FClose (path : string).

Definition apply_op (store : Store) (op : FsOp) : Store :=
  match op with
  | WriteTfExamples p b => <[p := chunk_bytes b]> store
  | OpenW _ => store
  | FWrite p data => <[p := data]> store
  | FClose _ => store
  end.

Definition apply_ops (store : Store) (ops : list FsOp) : Store :=
  foldl apply_op store ops.

(** The store when the run is interrupted after its first [k] steps. *)
Definition interrupted_after (k : nat) (store : Store) (ops : list FsOp) : Store :=
  apply_ops store (take k ops).

(** The store when the run is interrupted inside the step that follows
    its first [k] steps.  Inside [f.write(data)] the file has been emptied
    and holds the first [written] characters of [data]; the other steps
    are taken as a whole. *)
Definition interrupted_in (k written : nat) (store : Store) (ops : list FsOp)
  : Store :=
  let before := apply_ops store (take k ops) in
  match ops !! k with
  | Some (FWrite p data) => <[p := String.substring 0 written data]> before
  | _ => before
  end.

(** [models]: the last 50 entries of the sorted listing, slashes
    stripped. *)
Definition models (fs : GFile) (input_directory : string) : list string :=
  Py.strip "/" <$> Py.slice_from (-50) (Py.sorted (ListDirectory fs input_directory)).

(** The dict comprehension [model_gamedata]. *)
Definition model_gamedata (fs : GFile) (input_directory : string)
  : gmap string (list string) :=
  foldl (fun d model =>
           <[model := Glob fs (Py.path_join input_directory [model; "*.tfrecord.zz"])]> d)
        ∅ (models fs input_directory).

(** [sorted(model_gamedata.items())]. *)
Definition sorted_items (fs : GFile) (input_directory : string) : list Item :=
  merge_sort item_le (map_to_list (model_gamedata fs input_directory)).

Definition meta_file (output_directory : string) : string :=
  Py.path_join output_directory ["meta.txt"].

(** The [try] that reads the ledger: [set(f.read().split())], or the
    empty set when the file is not found. *)
Definition load_ledger (store : Store) (output_directory : string) : gset string :=
  match store !! meta_file output_directory with
  | Some content => list_to_set (Py.split_ws content)
  | None => ∅
  end.

(** What the loop over the generations carries. *)
Record LoopState := {
  already_processed : gset string;
  shuffled : list Item;
  chunk_ops : list FsOp
}.

Definition output_record (output_directory model_name : string) (i : nat) : string :=
  Py.path_join output_directory
    [model_name +:+ "-" +:+ Py.str_of_nat i +:+ ".tfrecord.zz"].

(** The body of [for model_name, record_files in sorted(...)]. *)
Definition gather_model (output_directory : string) (examples_per_record : Z)
    (st : LoopState) (item : Item) : LoopState :=
  let '(model_name, record_files) := item in
  if bool_decide (list_to_set record_files ⊆ already_processed st) then st
  else
    {| already_processed := already_processed st ∪ list_to_set record_files;
       shuffled := shuffled st ++ [(model_name, record_files)];
       chunk_ops := chunk_ops st ++
         imap (fun i example_batch =>
                 WriteTfExamples (output_record output_directory model_name i)
                                 example_batch)
              (shuffle_tf_examples examples_per_record record_files) |}.

Definition gather_loop (output_directory : string) (examples_per_record : Z)
    (ledger : gset string) (items : list Item) : LoopState :=
  foldl (gather_model output_directory examples_per_record)
        {| already_processed := ledger; shuffled := []; chunk_ops := [] |}
        items.

(** The last statement: the ledger goes to [meta_file]. *)
Definition write_ledger (output_directory : string) (ledger : gset string)
  : list FsOp :=
  [OpenW (meta_file output_directory);
   FWrite (meta_file output_directory) (Py.join NL (Py.sorted (elements ledger)));
   FClose (meta_file output_directory)].

Record GatherRun := {
  ledger_loaded : gset string;
  ledger_persisted : gset string;
  fed_to_shuffle : list Item;
  fs_ops : list FsOp
}.

Definition gather (fs : GFile) (store : Store)
    (input_directory output_directory : string) (examples_per_record : Z)
  : GatherRun :=
  let ledger := load_ledger store output_directory in
  let st := gather_loop output_directory examples_per_record ledger
              (sorted_items fs input_directory) in
  {| ledger_loaded := ledger;
     ledger_persisted := already_processed st;
     fed_to_shuffle := shuffled st;
     fs_ops := chunk_ops st ++ write_ledger output_directory (already_processed st) |}.

(** The output side after a run that was not interrupted. *)
Definition gather_store (fs : GFile) (store : Store)
    (input_directory output_directory : string) (examples_per_record : Z) : Store :=
  apply_ops store
    (fs_ops (gather fs store input_directory output_directory examples_per_record)).

(** The chunk files a run wrote, in order. *)
Definition chunks_written (ops : list FsOp) : list string :=
  omap (fun op => match op with
                  | WriteTfExamples p _ => Some p
                  | _ => None
                  end) ops.

End Gather.
Arguments FsOp : clear implicits.
Arguments LoopState : clear implicits.
Arguments GatherRun : clear implicits.

(** ** Path components: [os.path.basename] and [os.path.dirname] *)

Module PyPath.

(** [posixpath.basename(p)]: what follows the last slash of [p]. *)
Fixpoint basename (p : string) : string :=
  match p with
  | "" => ""
  | String c p' =>
      if Py.contains_char "/" p' then basename p'
      else if Ascii.eqb c "/" then p' else p
  end.

(** [p[:p.rfind('/') + 1]]: [p] up to its last slash, the slash
    included. *)
Fixpoint head_of (p : string) : string :=
  match p with
  | "" => ""
  | String c p' =>
      if Py.contains_char "/" p' then String c (head_of p')
      else if Ascii.eqb c "/" then "/" else ""
  end.

(** [posixpath.dirname(p)]: the head, without its trailing slashes
    unless it is made of slashes only. *)
Definition dirname (p : string) : string :=
  let head := head_of p in
  if negb (String.eqb head "") && negb (String.eqb (Py.lstrip "/" head) "")
  then Py.rstrip "/" head
  else head.

End PyPath.

(** ** Holdout validation: [validate] *)

Inductive ValidateEvent :=
  | TimerValidating (message : string)
  | DualNetValidate (working_dir : string) (tf_records : list string)
                    (checkpoint_name validate_name : option string).

(** The loop that extends [tf_records] with the glob of each
    directory. *)
Definition validate_records (fs : GFile) (tf_record_dirs : list string) : list string :=
  foldl (fun tf_records record_dir =>
           tf_records ++ Glob fs (Py.path_join record_dir ["*.zz"]))
        [] tf_record_dirs.

(** [validate]: [tf_records[0]] and [tf_records[-1]] are read before the
    network is called. *)
Definition validate (fs : GFile) (working_dir : string) (tf_record_dirs : list string)
    (checkpoint_name validate_name : option string) : Exn + list ValidateEvent :=
  let tf_records := validate_records fs tf_record_dirs in
  match tf_records !! 0%nat with
  | None => inl IndexError
  | Some first =>
      let first_record := PyPath.basename first in
      match last tf_records with
      | None => inl IndexError
      | Some lst =>
          let last_record := PyPath.basename lst in
          inr [TimerValidating
                 ("Validating from " +:+ first_record +:+ " to " +:+ last_record);
               DualNetValidate working_dir tf_records checkpoint_name validate_name]
      end
  end.

(** ** Exceptions of [bootstrap] and [convert] *)

Inductive ExnMore : Set :=
  | TypeError
  | KeyError.

(** ** The first generation: [bootstrap] *)

Module Bootstrap.

Inductive Event :=
  | EnterTemporaryDirectory (dir : string)
  | ExitTemporaryDirectory (dir : string)
  | EnsureDirExists (dir : string)
  | DualNetBootstrap (working_dir : string)
  | ExportModel (working_dir model_save_path : string)
  | FreezeGraph (model_save_path : string).

(** The statements the two branches share.  [os.path.dirname] of [None]
    raises [TypeError]. *)
Definition steps (working_dir : string) (model_save_path : option string)
  : list Event * option ExnMore :=
  match model_save_path with
  | None => ([EnsureDirExists working_dir], Some TypeError)
  | Some path =>
      ([EnsureDirExists working_dir;
        EnsureDirExists (PyPath.dirname path);
        DualNetBootstrap working_dir;
        ExportModel working_dir path], None)
  end.

(** [bootstrap]; [tmp] is the directory [tempfile.TemporaryDirectory()]
    makes, removed when the [with] block is left, by an exception too.
    Only the [else] branch ends with [freeze_graph]. *)
Definition bootstrap (tmp : string) (working_dir model_save_path : option string)
  : list Event * option ExnMore :=
  match working_dir with
  | None =>
      let '(evs, raised) := steps tmp model_save_path in
      (EnterTemporaryDirectory tmp :: evs ++ [ExitTemporaryDirectory tmp], raised)
  | Some working_dir =>
      match steps working_dir model_save_path, model_save_path with
      | (evs, None), Some path => (evs ++ [FreezeGraph path], None)
      | r, _ => r
      end
  end.

End Bootstrap.

(** ** Checkpoint conversion: [convert] *)

Module Convert.

(** A node of the stored graph: [n.name] and [n.op]. *)
Record Node := { name : string; op : string }.

Inductive Event :=
  | BuildInferenceGraph
  | NewSession
  | LoadCheckpoint (load_file : string)
  | ReadMetaGraphFile (path : string)
  | Restore (var_list : list string) (load_file : string)
  | AssignGlobalStep (global_step_value : Z)
  | Save (dest_file : string)
  | CloseSession
  | ResetDefaultGraph.

(** [set([n.name for n in ... if n.op == 'VariableV2'])]. *)
Definition stored_var_names (nodes : list Node) : gset string :=
  list_to_set (name <$> filter (fun n => op n = "VariableV2") nodes).

(** [convert]: [global_variables] are the op names of
    [tf.global_variables()], [global_step_value] what the checkpoint holds
    for [global_step].  [set.remove] raises [KeyError] on a name that is
    not in the set. *)
Definition convert (nodes : list Node) (global_variables : list string)
    (global_step_value : Z) (load_file dest_file : string)
  : list Event * option ExnMore :=
  let opened :=
    [BuildInferenceGraph; NewSession; LoadCheckpoint load_file;
     ReadMetaGraphFile (load_file +:+ ".meta")] in
  let stored := stored_var_names nodes in
  if bool_decide ("global_step" ∈ stored) then
    let stored1 := stored ∖ {["global_step"]} in
    let var_list := filter (fun v => v ∈ stored1) global_variables in
    (opened ++ [Restore var_list load_file;
                AssignGlobalStep global_step_value;
                Save dest_file; CloseSession; ResetDefaultGraph],
     None)
  else (opened, Some KeyError).

(** The variables a run restored. *)
Definition restored (evs : list Event) : list (list string) :=
  omap (fun ev => match ev with Restore var_list _ => Some var_list | _ => None end) evs.

End Convert.

(** ** Concrete engines, trees and stores used to run the definitions *)

Module Scenario.

(** A minimal engine: it counts the commands it received and raises its
    disconnect flag on [quit]. *)
Definition quit_send (e : nat * bool) (cmd : string) : string * (nat * bool) :=
  if String.eqb cmd "quit" then ("= bye", (S e.1, true))
  else ("= " +:+ cmd, (S e.1, e.2)).

Definition quit_disconnect (e : nat * bool) : bool := e.2.

Definition fresh_engine : nat * bool := (O, false).

(** Three commands in one line. *)
Definition three_commands : string :=
  "name" +:+ NL +:+ "version" +:+ NL +:+ "genmove b".

(** A line whose second command makes the engine disconnect. *)
Definition quit_in_the_middle : string :=
  "name" +:+ NL +:+ "quit" +:+ NL +:+ "version" +:+ NL +:+ "genmove b".

(** Two generations under [in], three games. *)
Definition tree_plain : GFile :=
  {| ListDirectory := fun d => if String.eqb d "in" then ["m1/"; "m0/"] else [];
     Glob := fun pat =>
       if String.eqb pat "in/m0/*.tfrecord.zz"
       then ["in/m0/a.tfrecord.zz"; "in/m0/b.tfrecord.zz"]
       else if String.eqb pat "in/m1/*.tfrecord.zz"
       then ["in/m1/c.tfrecord.zz"]
       else [] |}.

(** One generation, one game, under a directory whose name has a blank. *)
Definition tree_spaced : GFile :=
  {| ListDirectory := fun d => if String.eqb d "my data" then ["m0"] else [];
     Glob := fun pat =>
       if String.eqb pat "my data/m0/*.tfrecord.zz"
       then ["my data/m0/a.tfrecord.zz"]
       else [] |}.

(** A chunk directory without chunks. *)
Definition tree_empty : GFile :=
  {| ListDirectory := fun _ => []; Glob := fun _ => [] |}.

(** A chunk directory with three chunks. *)
Definition tree_chunks : GFile :=
  {| ListDirectory := fun _ => [];
     Glob := fun _ => ["c/m1-0.tfrecord.zz"; "c/m0-1.tfrecord.zz"; "c/m0-0.tfrecord.zz"] |}.

(** A shuffler that yields batches of [examples_per_record] file names
    at most, in the order given; a batch is stored as its names. *)
Fixpoint batches (fuel : nat) (n : nat) (files : list string) : list (list string) :=
  match fuel, files with
  | O, _ | _, [] => []
  | S fuel', _ => take (S (Nat.pred n)) files :: batches fuel' n (drop (S (Nat.pred n)) files)
  end.

Definition shuffle_in_order (examples_per_record : Z) (files : list string)
  : list (list string) :=
  batches (length files) (Z.to_nat examples_per_record) files.

Definition names_bytes (b : list string) : string := Py.join "," b.

(** The ledger of an earlier run that saw only the first game of [m0]. *)
Definition store_one_ledgered : Store :=
  {[ "out/meta.txt" := "in/m0/a.tfrecord.zz" ]}.

Definition played_game : Played nat :=
  {| sgf_clean := "(;B[aa])"; sgf_full := "(;B[aa]C[0.5])"; tf_examples := [7%nat; 8%nat; 9%nat] |}.

(** A generator whose every draw is [q]. *)
Definition env_drawing (q : Q) : Env :=
  {| draws := fun _ => q; next_draw := 4%nat; unix_time := 1525132800; hostname := "host1" |}.

End Scenario.

(** ** Further concrete inputs *)

Module Scenario2.

(** Two holdout directories. *)
Definition tree_holdout : GFile :=
  {| ListDirectory := fun _ => [];
     Glob := fun pat =>
       if String.eqb pat "h1/*.zz"
       then ["h1/b.tfrecord.zz"; "h1/a.tfrecord.zz"]
       else if String.eqb pat "h2/*.zz"
       then ["h2/c.tfrecord.zz"]
       else [] |}.

(** A stored graph with two variables besides the step counter. *)
Definition graph_nodes : list Convert.Node :=
  [ {| Convert.name := "conv/kernel"; Convert.op := "VariableV2" |};
    {| Convert.name := "global_step"; Convert.op := "VariableV2" |};
    {| Convert.name := "policy_output"; Convert.op := "Softmax" |};
    {| Convert.name := "conv/bias"; Convert.op := "VariableV2" |} ].

End Scenario2.

(** * Properties *)

(** ** Facts about the Python primitives *)

Module PyFacts.
Import Py.

Lemma append_cons a s t : String a s +:+ t = String a (s +:+ t).
Proof. reflexivity. Qed.

Lemma append_empty_l s : "" +:+ s = s.
Proof. reflexivity. Qed.

(** *** Slices *)

Lemma slice_from_neg {A} (n : nat) (l : list A) :
  (0 < n)%nat ->
  slice_from (- Z.of_nat n) l = drop (length l - n) l.
Proof.
  intros Hn. unfold slice_from.
  destruct (Z.ltb_spec (- Z.of_nat n) 0) as [_|?]; [|lia].
  f_equal. lia.
Qed.

Lemma slice_from_neg_length {A} (n : nat) (l : list A) :
  (0 < n)%nat ->
  length (slice_from (- Z.of_nat n) l) = (length l `min` n)%nat.
Proof. intros Hn. rewrite slice_from_neg, length_drop by done. lia. Qed.

(** A start of [0], also written [-0], keeps the whole list: the slice
    bounds what it returns only for a negative start. *)
Lemma slice_from_zero {A} (l : list A) : slice_from 0 l = l.
Proof. unfold slice_from. cbn. by destruct (length l). Qed.

(** *** Sorting *)

Lemma sorted_Permutation l : sorted l ≡ₚ l.
Proof. apply merge_sort_Permutation. Qed.

Lemma sorted_Sorted l : Sorted String.le (sorted l).
Proof. apply (Sorted_merge_sort String.le). Qed.

Lemma elem_of_sorted x l : x ∈ sorted l <-> x ∈ l.
Proof. by rewrite sorted_Permutation. Qed.

Lemma sorted_nil_inv l : sorted l = [] -> l = [].
Proof.
  intros H. apply Permutation_nil_r. rewrite <- H.
  symmetry. apply sorted_Permutation.
Qed.

(** *** Splitting at blanks *)

Lemma cons_word_app w ws ws' : cons_word w (ws ++ ws') = cons_word w ws ++ ws'.
Proof. by destruct w. Qed.

Lemma scan_words_app_space x c y :
  isspace c = true ->
  scan_words (x +:+ String c y) =
    ((scan_words x).1, (scan_words x).2 ++ split_ws y).
Proof.
  intros Hc. induction x as [|a x IH].
  - rewrite append_empty_l. cbn [scan_words]. unfold split_ws.
    destruct (scan_words y) as [w ws]. by rewrite Hc.
  - rewrite append_cons. cbn [scan_words]. rewrite IH.
    destruct (scan_words x) as [w ws]; cbn [fst snd].
    destruct (isspace a); cbn [fst snd]; [|done].
    by rewrite cons_word_app.
Qed.

Lemma split_ws_app_space x c y :
  isspace c = true ->
  split_ws (x +:+ String c y) = split_ws x ++ split_ws y.
Proof.
  intros Hc. unfold split_ws at 1 2. rewrite scan_words_app_space by done.
  destruct (scan_words x) as [w ws]; cbn [fst snd].
  apply cons_word_app.
Qed.

Lemma scan_words_word w : has_space w = false -> scan_words w = (w, []).
Proof.
  induction w as [|a w IH]; [done|]. cbn [has_space scan_words].
  intros [Ha Hw]%orb_false_elim. by rewrite IH, Ha.
Qed.

Lemma split_ws_word w : is_word w -> split_ws w = [w].
Proof.
  intros [Hne Hw]. unfold split_ws. rewrite scan_words_word by done.
  by destruct w.
Qed.

Lemma cons_word_Forall w ws :
  has_space w = false -> Forall is_word ws -> Forall is_word (cons_word w ws).
Proof. intros Hw Hws. destruct w; [done|]. by constructor. Qed.

Lemma scan_words_words s :
  has_space (scan_words s).1 = false /\ Forall is_word (scan_words s).2.
Proof.
  induction s as [|a s [IH1 IH2]]; [by split|].
  cbn [scan_words]. destruct (scan_words s) as [w ws]; cbn [fst snd] in *.
  destruct (isspace a) eqn:Ha; cbn [fst snd].
  - split; [done|]. by apply cons_word_Forall.
  - split; [|done]. cbn [has_space]. by rewrite Ha, IH1.
Qed.

(** Everything [s.split()] returns is a word. *)
Lemma split_ws_words s : Forall is_word (split_ws s).
Proof.
  unfold split_ws. pose proof (scan_words_words s) as [H1 H2].
  destruct (scan_words s) as [w ws]. by apply cons_word_Forall.
Qed.

(** *** Joining lines, and splitting them again *)

Lemma join_cons2 sep x y l :
  join sep (x :: y :: l) = x +:+ sep +:+ join sep (y :: l).
Proof. reflexivity. Qed.

Lemma isspace_newline : isspace "010" = true.
Proof. reflexivity. Qed.

(** Reading back what was written line by line splits every line at
    its own blanks. *)
Lemma split_ws_join_lines l :
  split_ws (join NL l) = flat_map split_ws l.
Proof.
  induction l as [|x [|y l] IH]; [done| |].
  - cbn [join flat_map]. by rewrite app_nil_r.
  - rewrite join_cons2. change (NL +:+ ?r) with (String "010" r).
    rewrite split_ws_app_space by apply isspace_newline.
    by rewrite IH.
Qed.

Lemma flat_map_split_ws_words l :
  Forall is_word l -> flat_map split_ws l = l.
Proof.
  induction 1 as [|x l Hx _ IH]; [done|].
  cbn [flat_map]. by rewrite split_ws_word, IH.
Qed.

(** Round trip of a ledger whose entries are words. *)
Lemma split_ws_join_words l :
  Forall is_word l -> split_ws (join NL l) = l.
Proof. intros H. by rewrite split_ws_join_lines, flat_map_split_ws_words. Qed.

(** A word among the lines is read back, whatever the other lines are. *)
Lemma word_in_split_ws_join w l :
  is_word w -> w ∈ l -> w ∈ split_ws (join NL l).
Proof.
  intros Hw Hin. rewrite split_ws_join_lines.
  apply list_elem_of_In, in_flat_map. exists w. split.
  - by apply list_elem_of_In.
  - rewrite split_ws_word by done. by left.
Qed.

End PyFacts.

(** ** The training window *)

Section TrainingWindow.
Variable fs : GFile.
Variables working_dir chunk_dir model_save_path : string.
Variable generation_num : Z.

Lemma max_chunks_value : WINDOW_SIZE / EXAMPLES_PER_RECORD = 12500.
Proof. reflexivity. Qed.

Lemma slice_start_nat :
  -1 * (WINDOW_SIZE / EXAMPLES_PER_RECORD)
  = - Z.of_nat (Z.to_nat (WINDOW_SIZE / EXAMPLES_PER_RECORD)).
Proof. rewrite max_chunks_value. rewrite Z2Nat.id; lia. Qed.

Lemma max_chunks_pos : (0 < Z.to_nat (WINDOW_SIZE / EXAMPLES_PER_RECORD))%nat.
Proof. rewrite max_chunks_value. lia. Qed.

Lemma train_dir_records_drop :
  let all := Py.sorted (Glob fs (Py.path_join chunk_dir ["*.tfrecord.zz"])) in
  train_dir_records fs chunk_dir
  = drop (length all - Z.to_nat (WINDOW_SIZE / EXAMPLES_PER_RECORD)) all.
Proof.
  intros all. unfold train_dir_records. fold all. rewrite slice_start_nat.
  apply PyFacts.slice_from_neg, max_chunks_pos.
Qed.

(** C2: for every chunk directory, [train_dir] keeps at most
    [WINDOW_SIZE // EXAMPLES_PER_RECORD] (12500) chunk files: the last
    that many entries of the chunk list sorted by name, which is the
    whole list when it has fewer entries. *)
Theorem train_dir_window_bound :
  let all := Py.sorted (Glob fs (Py.path_join chunk_dir ["*.tfrecord.zz"])) in
  let max_chunks := Z.to_nat (WINDOW_SIZE / EXAMPLES_PER_RECORD) in
  Z.of_nat max_chunks = 12500
  /\ Sorted String.le all
  /\ all ≡ₚ Glob fs (Py.path_join chunk_dir ["*.tfrecord.zz"])
  /\ train_dir_records fs chunk_dir = drop (length all - max_chunks) all
  /\ length (train_dir_records fs chunk_dir) = (length all `min` max_chunks)%nat
  /\ (length (train_dir_records fs chunk_dir) <= max_chunks)%nat.
Proof.
  intros all max_chunks.
  pose proof train_dir_records_drop as Hw. cbv zeta in Hw.
  fold all max_chunks in Hw.
  split_and!.
  - subst max_chunks. rewrite max_chunks_value. lia.
  - apply PyFacts.sorted_Sorted.
  - apply PyFacts.sorted_Permutation.
  - exact Hw.
  - rewrite Hw, length_drop. lia.
  - rewrite Hw, length_drop. pose proof max_chunks_pos. lia.
Qed.

(** The window is empty only when the directory has no chunk file. *)
Lemma train_dir_records_nil :
  train_dir_records fs chunk_dir = [] <->
  Glob fs (Py.path_join chunk_dir ["*.tfrecord.zz"]) = [].
Proof.
  rewrite train_dir_records_drop. pose proof max_chunks_pos as Hpos. split.
  - intros Hnil. apply PyFacts.sorted_nil_inv.
    apply (f_equal length) in Hnil. rewrite length_drop in Hnil.
    apply length_zero_iff_nil.
    cbn [length] in Hnil. lia.
  - intros ->. change (Py.sorted []) with (@nil string). apply drop_nil.
Qed.

Lemma train_nil : train working_dir [] model_save_path generation_num = inl IndexError.
Proof. reflexivity. Qed.

(** When [train] goes on, the list is not empty and the trainer gets
    the whole of it. *)
Lemma train_proceeds_nonempty tf_records evs :
  train working_dir tf_records model_save_path generation_num = inr evs ->
  tf_records <> [] /\
  DualNetTrain working_dir tf_records generation_num ∈ evs.
Proof.
  unfold train. destruct tf_records as [|x l]; [done|].
  cbn [lookup list_lookup]. destruct (last (x :: l)); [|done].
  intros [= <-]. split; [done|]. set_solver.
Qed.

(** C8: when the selected window is empty, [train] raises (the
    [IndexError] of [tf_records[0]]) before the trainer is called, and
    so does [train_dir]: no event of training is produced. *)
Theorem train_dir_empty_window_fails :
  train_dir_records fs chunk_dir = [] ->
  train working_dir (train_dir_records fs chunk_dir) model_save_path generation_num
    = inl IndexError
  /\ train_dir fs working_dir chunk_dir model_save_path generation_num
    = inl IndexError
  /\ forall evs,
      train_dir fs working_dir chunk_dir model_save_path generation_num <> inr evs.
Proof.
  intros Hnil. unfold train_dir. rewrite Hnil, train_nil. by split_and!.
Qed.

End TrainingWindow.

(** C8 at a chunk directory without chunk files. *)
Lemma train_dir_empty_window_fails_witness :
  train_dir_records Scenario.tree_empty "chunks" = []
  /\ train_dir Scenario.tree_empty "work" "chunks" "model" 0 = inl IndexError.
Proof.
  assert (train_dir_records Scenario.tree_empty "chunks" = []) as H by reflexivity.
  split; [exact H|].
  exact (proj1 (proj2
    (train_dir_empty_window_fails Scenario.tree_empty "work" "chunks" "model" 0 H))).
Defined.

(** ** The GTP session loop *)

Section SplitLines.
Import Py.

Lemma split_newline inpt : split NL inpt = inr (cmd_list_of inpt).
Proof.
  unfold cmd_list_of, split, NL.
  by destruct (split_fields _ 0 inpt) as [w ws].
Qed.

Lemma split_fields_newline_step c s :
  split_fields NL 0 (String c s) =
    if Ascii.eqb "010" c
    then ("", (split_fields NL 0 s).1 :: (split_fields NL 0 s).2)
    else (String c (split_fields NL 0 s).1, (split_fields NL 0 s).2).
Proof.
  cbn [split_fields NL is_prefix String.length Nat.pred].
  rewrite andb_true_r.
  by destruct (Ascii.eqb "010" c), (split_fields NL 0 s).
Qed.

(** The sub-commands, joined again by the marker, are the line. *)
Lemma join_split_fields_newline s :
  join NL ((split_fields NL 0 s).1 :: (split_fields NL 0 s).2) = s.
Proof.
  induction s as [|c s IH]; [done|].
  rewrite split_fields_newline_step.
  destruct (Ascii.eqb_spec "010" c) as [<-|Hc]; cbn [fst snd].
  - rewrite PyFacts.join_cons2, IH. reflexivity.
  - destruct (split_fields NL 0 s) as [w [|w' ws]]; cbn [fst snd] in *.
    + cbn [join] in *. by rewrite IH.
    + rewrite PyFacts.join_cons2 in *. rewrite PyFacts.append_cons. by rewrite IH.
Qed.

(** No sub-command holds the marker. *)
Lemma split_fields_newline_free s :
  Forall (fun cmd => contains_char "010" cmd = false)
         ((split_fields NL 0 s).1 :: (split_fields NL 0 s).2).
Proof.
  induction s as [|c s IH]; [by repeat constructor|].
  rewrite split_fields_newline_step.
  apply Forall_cons in IH as [IH1 IH2].
  destruct (Ascii.eqb_spec "010" c) as [<-|Hc]; cbn [fst snd].
  - by repeat constructor.
  - constructor; [|done]. cbn [contains_char]. rewrite IH1, orb_false_r.
    apply Ascii.eqb_neq. congruence.
Qed.

Lemma cmd_list_of_fields inpt :
  cmd_list_of inpt = (split_fields NL 0 inpt).1 :: (split_fields NL 0 inpt).2.
Proof.
  unfold cmd_list_of, split, NL.
  by destruct (split_fields _ 0 inpt) as [w ws].
Qed.

Lemma join_cmd_list_of inpt : join NL (cmd_list_of inpt) = inpt.
Proof. rewrite cmd_list_of_fields. apply join_split_fields_newline. Qed.

Lemma cmd_list_of_newline_free inpt :
  Forall (fun cmd => contains_char "010" cmd = false) (cmd_list_of inpt).
Proof. rewrite cmd_list_of_fields. apply split_fields_newline_free. Qed.

(** A line without the marker is one command: the line itself. *)
Lemma cmd_list_of_single inpt :
  contains_char "010" inpt = false -> cmd_list_of inpt = [inpt].
Proof.
  intros H. rewrite cmd_list_of_fields.
  induction inpt as [|c s IH]; [done|].
  cbn [contains_char] in H. apply orb_false_elim in H as [Hc Hs].
  rewrite split_fields_newline_step.
  rewrite (Ascii.eqb_sym "010"%char c), Hc. cbn [fst snd].
  specialize (IH Hs). by injection IH as -> ->.
Qed.

End SplitLines.

Section ProtocolLoopFacts.
Context {Engine : Type}.
Variable send : Engine -> string -> string * Engine.
Variable disconnect : Engine -> bool.

Lemma length_replies e cmds : length (replies send e cmds) = length cmds.
Proof. revert e. induction cmds as [|c cmds IH]; intros e; cbn; [done|]. by rewrite IH. Qed.

Lemma engine_after_app e cmds cmds' :
  engine_after send e (cmds ++ cmds') =
  engine_after send (engine_after send e cmds) cmds'.
Proof. apply foldl_app. Qed.

(** The [for] loop performs the exchanges of the engine seen as a
    transducer, and leaves the engine after all the commands. *)
Lemma dispatch_exchange e cmds :
  dispatch send e cmds =
    (exchange cmds (replies send e cmds), engine_after send e cmds).
Proof.
  revert e. induction cmds as [|c cmds IH]; intros e; [done|].
  cbn [dispatch replies]. destruct (send e c) as [r e1] eqn:Hs.
  rewrite IH. unfold engine_after. cbn [foldl]. rewrite Hs. reflexivity.
Qed.

Lemma sent_app tr tr' : sent (tr ++ tr') = sent tr ++ sent tr'.
Proof. apply omap_app. Qed.

Lemma written_app tr tr' : written (tr ++ tr') = written tr ++ written tr'.
Proof. apply omap_app. Qed.

Lemma sent_exchange cmds rs :
  length rs = length cmds -> sent (exchange cmds rs) = cmds.
Proof.
  revert rs. induction cmds as [|c cmds IH]; intros [|r rs] Hlen;
    simplify_eq/=; [done|].
  f_equal. by apply IH.
Qed.

Lemma written_exchange cmds rs :
  length rs = length cmds -> written (exchange cmds rs) = rs.
Proof.
  revert rs. induction cmds as [|c cmds IH]; intros [|r rs] Hlen;
    simplify_eq/=; [done|].
  f_equal. by apply IH.
Qed.

Lemma exchange_app cmds cmds' rs rs' :
  length rs = length cmds ->
  exchange (cmds ++ cmds') (rs ++ rs') = exchange cmds rs ++ exchange cmds' rs'.
Proof.
  intros Hlen. unfold exchange.
  rewrite zip_with_app by done. apply flat_map_app.
Qed.

Lemma replies_app e cmds cmds' :
  replies send e (cmds ++ cmds') =
  replies send e cmds ++ replies send (engine_after send e cmds) cmds'.
Proof.
  revert e. induction cmds as [|c cmds IH]; intros e; [done|].
  cbn [app replies]. by rewrite IH.
Qed.

(** One turn of the [while] loop on a line that was read. *)
Lemma gtp_loop_line e inpt stdin :
  disconnect e = false ->
  gtp_loop send disconnect e (Line inpt :: stdin) =
    let cmds := cmd_list_of inpt in
    let r := gtp_loop send disconnect (engine_after send e cmds) stdin in
    {| trace := ReadLine inpt :: exchange cmds (replies send e cmds) ++ trace r;
       outcome := outcome r;
       engine_end := engine_end r |}.
Proof.
  intros Hd. cbn [gtp_loop]. rewrite Hd, dispatch_exchange. reflexivity.
Qed.

Lemma gtp_loop_disconnected e stdin :
  disconnect e = true ->
  gtp_loop send disconnect e stdin =
    {| trace := []; outcome := Returned; engine_end := e |}.
Proof. intros Hd. destruct stdin; cbn [gtp_loop]; by rewrite Hd. Qed.

End ProtocolLoopFacts.

Section ProtocolLoopClaims.
Context {Engine : Type}.
Variable send : Engine -> string -> string * Engine.
Variable disconnect : Engine -> bool.

(** A run of the loop starts by reading, when it does anything. *)
Lemma gtp_loop_starts_reading e stdin ev :
  head (trace (gtp_loop send disconnect e stdin)) = Some ev ->
  (exists inpt, ev = ReadLine inpt) \/ (exists x, ev = ReadRaises x).
Proof.
  destruct stdin as [|[inpt|] stdin]; cbn [gtp_loop];
    destruct (disconnect e); cbn; try done.
  - intros [= <-]. right. by eexists.
  - destruct (dispatch send e (cmd_list_of inpt)). cbn.
    intros [= <-]. left. by eexists.
  - intros [= <-]. right. by eexists.
Qed.

(** C4: a line that is read is split at the newline marker into its
    sub-commands (which, joined by the marker, give the line back);
    the loop sends each one to the engine and writes and flushes its
    reply, in the order of the sub-commands, one reply per command;
    what follows in the session starts, if at all, with the next read. *)
Theorem gtp_dispatch_in_order (e : Engine) (inpt : string) (stdin : list Input) :
  disconnect e = false ->
  let cmds := cmd_list_of inpt in
  let rs := replies send e cmds in
  let rest := gtp_loop send disconnect (engine_after send e cmds) stdin in
  Py.split NL inpt = inr cmds
  /\ Py.join NL cmds = inpt
  /\ trace (gtp_loop send disconnect e (Line inpt :: stdin))
       = ReadLine inpt :: exchange cmds rs ++ trace rest
  /\ sent (exchange cmds rs) = cmds
  /\ written (exchange cmds rs) = rs
  /\ length rs = length cmds
  /\ forall ev, head (trace rest) = Some ev ->
       (exists l, ev = ReadLine l) \/ (exists x, ev = ReadRaises x).
Proof.
  intros Hd cmds rs rest.
  pose proof (length_replies send e cmds) as Hlen.
  split_and!.
  - apply split_newline.
  - apply join_cmd_list_of.
  - by rewrite gtp_loop_line.
  - by apply sent_exchange.
  - by apply written_exchange.
  - done.
  - apply gtp_loop_starts_reading.
Qed.

(** C10: the disconnect flag is looked at between lines only.  When a
    sub-command of a line leaves the engine disconnected, the
    sub-commands after it on that line are still sent, and their
    replies written and flushed, one by one and in order; if the flag
    is still up at the end of the line, the loop then returns without
    reading again. *)
Theorem gtp_disconnect_between_lines_only
    (e : Engine) (inpt : string) (stdin : list Input)
    (pre : list string) (cmd : string) (post : list string) :
  disconnect e = false ->
  cmd_list_of inpt = pre ++ cmd :: post ->
  disconnect (engine_after send e (pre ++ [cmd])) = true ->
  let e1 := engine_after send e (pre ++ [cmd]) in
  let e2 := engine_after send e1 post in
  let r := gtp_loop send disconnect e (Line inpt :: stdin) in
  trace r = ReadLine inpt
              :: exchange (pre ++ [cmd]) (replies send e (pre ++ [cmd]))
              ++ exchange post (replies send e1 post)
              ++ trace (gtp_loop send disconnect e2 stdin)
  /\ sent (exchange post (replies send e1 post)) = post
  /\ written (exchange post (replies send e1 post)) = replies send e1 post
  /\ length (replies send e1 post) = length post
  /\ (disconnect e2 = true ->
      trace (gtp_loop send disconnect e2 stdin) = []
      /\ outcome r = Returned /\ engine_end r = e2).
Proof.
  intros Hd Hsplit Hquit e1 e2 r.
  pose proof (length_replies send e1 post) as Hlen.
  assert (pre ++ cmd :: post = (pre ++ [cmd]) ++ post) as Hassoc
    by (by rewrite <- app_assoc).
  assert (r = {| trace := ReadLine inpt
                   :: exchange (pre ++ [cmd]) (replies send e (pre ++ [cmd]))
                   ++ exchange post (replies send e1 post)
                   ++ trace (gtp_loop send disconnect e2 stdin);
                 outcome := outcome (gtp_loop send disconnect e2 stdin);
                 engine_end := engine_end (gtp_loop send disconnect e2 stdin) |})
    as Hr.
  { subst r. rewrite gtp_loop_line by done. cbv zeta.
    rewrite Hsplit, Hassoc, engine_after_app, replies_app.
    rewrite exchange_app by apply length_replies.
    fold e1. fold e2. by rewrite <- app_assoc. }
  split_and!.
  - by rewrite Hr.
  - by apply sent_exchange.
  - by apply written_exchange.
  - done.
  - intros He2. rewrite Hr. cbn [outcome engine_end].
    by rewrite gtp_loop_disconnected.
Qed.

(** C5, amended: a line that [input()] returned never makes the split
    fail, so the fallback of the [except] branch is not taken (a line
    without the marker is one command, the line itself); the loop
    returns only with the engine disconnected; a closed channel and a
    decode failure make [input()] raise, and that exception ends the
    session with the engine not disconnected. *)
Theorem gtp_session_end (e : Engine) (stdin : list Input) :
  let r := gtp send disconnect e stdin in
  (forall inpt, Py.split NL inpt = inr (cmd_list_of inpt))
  /\ (forall inpt,
        cmd_list_of inpt = [inpt] \/ Py.contains_char "010" inpt = true)
  /\ match outcome r with
     | Returned => disconnect (engine_end r) = true
     | Raised x =>
         disconnect (engine_end r) = false
         /\ ((x = EOFError /\ Undecodable ∉ stdin)
             \/ (x = UnicodeDecodeError /\ Undecodable ∈ stdin))
     end.
Proof.
  intros r. split_and!.
  - apply split_newline.
  - intros inpt. destruct (Py.contains_char "010" inpt) eqn:Hc; [by right|].
    left. by apply cmd_list_of_single.
  - subst r. unfold gtp. cbn [outcome engine_end].
    revert e. induction stdin as [|[inpt|] stdin IH]; intros e.
    + cbn [gtp_loop]. destruct (disconnect e) eqn:Hd; cbn; [done|].
      split; [done|]. left. split; [done|]. apply not_elem_of_nil.
    + destruct (disconnect e) eqn:Hd.
      * by rewrite gtp_loop_disconnected.
      * rewrite gtp_loop_line by done. cbv zeta. cbn [outcome engine_end].
        specialize (IH (engine_after send e (cmd_list_of inpt))).
        destruct (outcome (gtp_loop send disconnect _ stdin)); [done|].
        destruct IH as [Hend [[Hx Hin]|[Hx Hin]]]; (split; [exact Hend|]).
        -- left. split; [exact Hx|]. by apply not_elem_of_cons.
        -- right. split; [exact Hx|]. apply elem_of_cons. by right.
    + cbn [gtp_loop]. destruct (disconnect e) eqn:Hd; cbn; [done|].
      split; [done|]. right. split; [done|]. apply elem_of_cons. by left.
Qed.

End ProtocolLoopClaims.

(** C4 on three commands in one line. *)
Lemma gtp_dispatch_in_order_witness :
  Scenario.quit_disconnect Scenario.fresh_engine = false
  /\ sent (trace (gtp_loop Scenario.quit_send Scenario.quit_disconnect
                   Scenario.fresh_engine [Line Scenario.three_commands]))
     = ["name"; "version"; "genmove b"].
Proof.
  split; [reflexivity|].
  pose proof (gtp_dispatch_in_order Scenario.quit_send Scenario.quit_disconnect
                Scenario.fresh_engine Scenario.three_commands [] eq_refl) as H.
  cbv zeta in H. destruct H as (_ & _ & -> & _). reflexivity.
Defined.

(** C10 on a line with [quit] in the middle. *)
Lemma gtp_disconnect_between_lines_only_witness :
  sent (trace (gtp_loop Scenario.quit_send Scenario.quit_disconnect
                 Scenario.fresh_engine
                 [Line Scenario.quit_in_the_middle; Line "name"]))
  = ["name"; "quit"; "version"; "genmove b"]
  /\ outcome (gtp_loop Scenario.quit_send Scenario.quit_disconnect
                Scenario.fresh_engine
                [Line Scenario.quit_in_the_middle; Line "name"]) = Returned.
Proof.
  pose proof (gtp_disconnect_between_lines_only
                Scenario.quit_send Scenario.quit_disconnect
                Scenario.fresh_engine Scenario.quit_in_the_middle [Line "name"]
                ["name"] "quit" ["version"; "genmove b"]
                eq_refl eq_refl eq_refl) as H.
  cbv zeta in H. destruct H as (Htr & _ & _ & _ & Hend).
  destruct (Hend eq_refl) as (_ & Hout & _).
  split; [rewrite Htr; reflexivity | exact Hout].
Defined.

(** C5 as stated fails: with the channel closed, and on bytes that do
    not decode, the session ends by an exception while the engine has not
    signalled a disconnect. *)
Lemma gtp_closed_channel_aborts :
  outcome (gtp Scenario.quit_send Scenario.quit_disconnect
             Scenario.fresh_engine []) = Raised EOFError
  /\ outcome (gtp Scenario.quit_send Scenario.quit_disconnect
                Scenario.fresh_engine [Line "name"; Undecodable])
     = Raised UnicodeDecodeError
  /\ Scenario.quit_disconnect
       (engine_end (gtp Scenario.quit_send Scenario.quit_disconnect
                      Scenario.fresh_engine [])) = false.
Proof. by split_and!. Qed.

(** ** Self-play: the holdout draw *)

Section SelfplayClaims.
Context {Example : Type}.

Lemma float_lt_spec (x y : Q) : float_lt x y = true <-> (x < y)%Q.
Proof.
  unfold float_lt. rewrite negb_true_iff, <- not_true_iff_false, Qle_bool_iff.
  split; [apply Qnot_le_lt | apply Qlt_not_le].
Qed.

(** [random.random()] yields multiples of 2^-53; on those the default
    threshold, the float nearest to 0.05, decides as 0.05 does. *)
Lemma default_pct_on_draws (k : Z) :
  float_lt (k # 9007199254740992) holdout_pct_default = true
  <-> (k # 9007199254740992 < 5 # 100)%Q.
Proof.
  rewrite float_lt_spec. unfold holdout_pct_default, Qlt. cbn [Qnum Qden].
  lia.
Qed.


End SelfplayClaims.

(** ** The aggregator and its ledger *)

Section GatherFacts.
Context {Batch : Type}.
Variable shuffle_tf_examples : Z -> list string -> list Batch.
Variable chunk_bytes : Batch -> string.
Variable output_directory : string.
Variable examples_per_record : Z.

Local Abbreviation step :=
  (gather_model shuffle_tf_examples output_directory examples_per_record).
Local Abbreviation loop := (foldl step).

(** *** One generation *)

Lemma gather_model_skip st model_name record_files :
  list_to_set record_files ⊆ already_processed st ->
  step st (model_name, record_files) = st.
Proof. intros H. unfold gather_model. by rewrite bool_decide_eq_true_2. Qed.

Lemma gather_model_take st model_name record_files :
  ¬ list_to_set record_files ⊆ already_processed st ->
  step st (model_name, record_files) =
    {| already_processed := already_processed st ∪ list_to_set record_files;
       shuffled := shuffled st ++ [(model_name, record_files)];
       chunk_ops := chunk_ops st ++
         imap (fun i b => WriteTfExamples (output_record output_directory model_name i) b)
              (shuffle_tf_examples examples_per_record record_files) |}.
Proof. intros H. unfold gather_model. by rewrite bool_decide_eq_false_2. Qed.

(** Skipped or not, a generation leaves the ledger as the union of the
    ledger before it and its files. *)
Lemma gather_model_ledger st item :
  already_processed (step st item) = already_processed st ∪ list_to_set item.2.
Proof.
  destruct item as [m files]. cbn [snd].
  destruct (decide (list_to_set files ⊆ already_processed st)) as [Hsub|Hsub].
  - rewrite gather_model_skip by done. symmetry.
    rewrite (comm_L (∪)). by apply subseteq_union_1_L.
  - by rewrite gather_model_take.
Qed.

(** *** The loop over the generations *)

Lemma gather_loop_ledger items st x :
  x ∈ already_processed (loop st items) <->
  x ∈ already_processed st \/ exists item, item ∈ items /\ x ∈ item.2.
Proof.
  revert st. induction items as [|item items IH]; intros st; cbn [foldl].
  - split; [by left|]. intros [?|(item & Hin & _)]; [done|].
    by apply elem_of_nil in Hin.
  - rewrite IH, gather_model_ledger, elem_of_union, elem_of_list_to_set.
    split.
    + intros [[?|?]|(it & Hin & Hx)].
      * by left.
      * right. exists item. split; [apply elem_of_cons; by left|done].
      * right. exists it. split; [apply elem_of_cons; by right|done].
    + intros [?|(it & [->|Hin]%elem_of_cons & Hx)].
      * left. by left.
      * left. by right.
      * right. by exists it.
Qed.

Lemma gather_loop_ledger_mono items st :
  already_processed st ⊆ already_processed (loop st items).
Proof. intros x Hx. apply gather_loop_ledger. by left. Qed.

Lemma gather_loop_covers items st item :
  item ∈ items -> list_to_set item.2 ⊆ already_processed (loop st items).
Proof.
  intros Hin x Hx%elem_of_list_to_set. apply gather_loop_ledger.
  right. by exists item.
Qed.

(** With every file in the ledger already, the loop changes nothing. *)
Lemma gather_loop_all_ledgered items st :
  (forall item, item ∈ items -> list_to_set item.2 ⊆ already_processed st) ->
  loop st items = st.
Proof.
  induction items as [|[m files] items IH]; intros Hall; cbn [foldl]; [done|].
  rewrite gather_model_skip.
  - apply IH. intros item Hin. apply Hall, elem_of_cons. by right.
  - apply (Hall (m, files)), elem_of_cons. by left.
Qed.

(** What goes to the shuffler is an item as it stands, and one that
    the ledger did not cover. *)
Lemma gather_loop_shuffled items st item :
  item ∈ shuffled (loop st items) ->
  item ∈ shuffled st
  \/ (item ∈ items /\ ¬ list_to_set item.2 ⊆ already_processed st).
Proof.
  revert st. induction items as [|[m files] items IH]; intros st; cbn [foldl].
  - by left.
  - intros [Hin|[Hin Hsub]]%IH.
    + destruct (decide (list_to_set files ⊆ already_processed st)) as [Hs|Hs].
      * rewrite gather_model_skip in Hin by done. by left.
      * rewrite gather_model_take in Hin by done. cbn [shuffled] in Hin.
        apply elem_of_app in Hin as [Hin|Hin]; [by left|].
        apply list_elem_of_singleton in Hin as ->. right.
        split; [apply elem_of_cons; by left|done].
    + right. split; [apply elem_of_cons; by right|].
      intros Hsub'. apply Hsub. etrans; [exact Hsub'|].
      rewrite gather_model_ledger. apply union_subseteq_l.
Qed.

(** The loop writes chunk files only, each named after a generation
    and an index. *)
Lemma gather_loop_chunk_ops items st :
  Forall (fun op => exists m i b,
              op = WriteTfExamples (output_record output_directory m i) b)
         (chunk_ops st) ->
  Forall (fun op => exists m i b,
              op = WriteTfExamples (output_record output_directory m i) b)
         (chunk_ops (loop st items)).
Proof.
  revert st. induction items as [|[m files] items IH]; intros st Hst;
    cbn [foldl]; [done|].
  apply IH.
  destruct (decide (list_to_set files ⊆ already_processed st)) as [Hs|Hs].
  - by rewrite gather_model_skip.
  - rewrite gather_model_take by done. cbn [chunk_ops].
    apply Forall_app. split; [done|].
    apply Forall_forall. intros op (i & b & -> & _)%elem_of_lookup_imap.
    by exists m, i, b.
Qed.

(** A skipped generation leaves no chunk to write. *)
Lemma gather_loop_skip_all_no_ops items ledger :
  (forall item, item ∈ items -> list_to_set item.2 ⊆ ledger) ->
  chunk_ops (gather_loop shuffle_tf_examples output_directory examples_per_record
               ledger items) = []
  /\ shuffled (gather_loop shuffle_tf_examples output_directory examples_per_record
                 ledger items) = []
  /\ already_processed
       (gather_loop shuffle_tf_examples output_directory examples_per_record
          ledger items) = ledger.
Proof.
  intros Hall. unfold gather_loop. by rewrite gather_loop_all_ledgered.
Qed.

End GatherFacts.

(** *** The generations that are looked at *)

Section GatherItems.
Variable fs : GFile.
Variable input_directory : string.

Lemma foldl_insert_glob_lookup (l : list string) (d : gmap string (list string)) m files :
  foldl (fun d model =>
           <[model := Glob fs (Py.path_join input_directory [model; "*.tfrecord.zz"])]> d)
        d l !! m = Some files ->
  d !! m = Some files
  \/ (m ∈ l /\ files = Glob fs (Py.path_join input_directory [m; "*.tfrecord.zz"])).
Proof.
  revert d. induction l as [|a l IH]; intros d; cbn [foldl]; [by left|].
  intros [Hd|[Hin ->]]%IH.
  - destruct (decide (a = m)) as [->|Hne].
    + rewrite lookup_insert_eq in Hd. injection Hd as <-.
      right. split; [apply elem_of_cons; by left|done].
    + rewrite lookup_insert_ne in Hd by done. by left.
  - right. split; [apply elem_of_cons; by right|done].
Qed.

(** An item pairs one of the models with all that the glob of its
    directory returned. *)
Lemma sorted_items_elem m files :
  (m, files) ∈ sorted_items fs input_directory ->
  m ∈ models fs input_directory
  /\ files = Glob fs (Py.path_join input_directory [m; "*.tfrecord.zz"]).
Proof.
  unfold sorted_items. rewrite merge_sort_Permutation, elem_of_map_to_list.
  intros [Hd|H]%foldl_insert_glob_lookup; [|done].
  by rewrite lookup_empty in Hd.
Qed.

End GatherItems.

(** *** Paths of the output side *)

Section OutputPaths.
Import Py.

Lemma last_char_append a b c :
  last_char b = Some c -> last_char (a +:+ b) = Some c.
Proof.
  intros Hb. induction a as [|x a IH]; [done|].
  rewrite PyFacts.append_cons. cbn [last_char]. by rewrite IH.
Qed.

Lemma last_char_path_join2 p b c :
  last_char b = Some c -> last_char (path_join2 p b) = Some c.
Proof.
  intros Hb. unfold path_join2.
  destruct (is_prefix "/" b); [done|].
  destruct (_ || _); repeat apply last_char_append; done.
Qed.

Lemma output_record_last out m i :
  last_char (output_record out m i) = Some "z"%char.
Proof.
  unfold output_record, path_join. cbn [foldl].
  apply last_char_path_join2. by repeat apply last_char_append.
Qed.

Lemma meta_file_last out : last_char (meta_file out) = Some "t"%char.
Proof.
  unfold meta_file, path_join. cbn [foldl]. by apply last_char_path_join2.
Qed.

(** No chunk file is the ledger file. *)
Lemma output_record_not_meta out m i : output_record out m i <> meta_file out.
Proof.
  intros Heq. pose proof (output_record_last out m i) as Hz.
  rewrite Heq, meta_file_last in Hz. discriminate.
Qed.

End OutputPaths.

(** *** The ledger file across a run *)

Section GatherStore.
Context {Batch : Type}.
Variable shuffle_tf_examples : Z -> list string -> list Batch.
Variable chunk_bytes : Batch -> string.
Variable fs : GFile.
Variables input_directory output_directory : string.
Variable examples_per_record : Z.

Local Abbreviation run store :=
  (gather shuffle_tf_examples fs store input_directory output_directory
          examples_per_record).
Local Abbreviation store_after store :=
  (gather_store shuffle_tf_examples chunk_bytes fs store input_directory
                output_directory examples_per_record).
Local Abbreviation is_chunk_write :=
  (fun op : FsOp Batch =>
     exists m i b, op = WriteTfExamples (output_record output_directory m i) b).

Lemma apply_ops_app store ops ops' :
  apply_ops chunk_bytes store (ops ++ ops') =
  apply_ops chunk_bytes (apply_ops chunk_bytes store ops) ops'.
Proof. apply foldl_app. Qed.

(** Writing chunks leaves the ledger file as it was. *)
Lemma apply_chunk_ops_meta store ops :
  Forall is_chunk_write ops ->
  apply_ops chunk_bytes store ops !! meta_file output_directory
  = store !! meta_file output_directory.
Proof.
  intros Hops. revert store.
  induction Hops as [|op ops (m & i & b & ->) _ IH]; intros store; [done|].
  unfold apply_ops in *. cbn [foldl apply_op]. rewrite IH.
  apply lookup_insert_ne, output_record_not_meta.
Qed.

Lemma gather_chunk_ops store :
  exists ops,
    fs_ops (run store) =
      ops ++ write_ledger output_directory (ledger_persisted (run store))
    /\ Forall is_chunk_write ops.
Proof.
  eexists. split; [reflexivity|].
  apply gather_loop_chunk_ops. constructor.
Qed.

(** After a whole run the ledger file holds the sorted ledger, one
    entry per line. *)
Lemma gather_store_meta store :
  store_after store !! meta_file output_directory
  = Some (Py.join NL (Py.sorted (elements (ledger_persisted (run store))))).
Proof.
  unfold gather_store. destruct (gather_chunk_ops store) as (ops & -> & _).
  rewrite apply_ops_app. unfold write_ledger, apply_ops at 1.
  cbn [foldl apply_op]. apply lookup_insert_eq.
Qed.

Lemma load_ledger_words store x :
  x ∈ load_ledger store output_directory -> Py.is_word x.
Proof.
  unfold load_ledger. destruct (store !! _) as [content|]; [|set_solver].
  rewrite elem_of_list_to_set. intros Hx.
  by eapply Forall_forall in Hx; [|apply PyFacts.split_ws_words].
Qed.

(** What the next run will load: every line of the file, split at its
    own blanks. *)
Lemma load_ledger_after store x :
  x ∈ load_ledger (store_after store) output_directory <->
  exists y, y ∈ ledger_persisted (run store) /\ x ∈ Py.split_ws y.
Proof.
  unfold load_ledger. rewrite gather_store_meta, elem_of_list_to_set.
  rewrite PyFacts.split_ws_join_lines, list_elem_of_In, in_flat_map.
  split; intros (y & Hy & Hx); exists y.
  - apply list_elem_of_In, PyFacts.elem_of_sorted, elem_of_elements in Hy.
    split; [done|]. by apply list_elem_of_In.
  - split; [|by apply list_elem_of_In].
    by apply list_elem_of_In, PyFacts.elem_of_sorted, elem_of_elements.
Qed.

Lemma load_ledger_after_word store x :
  Py.is_word x -> x ∈ ledger_persisted (run store) ->
  x ∈ load_ledger (store_after store) output_directory.
Proof.
  intros Hw Hx. apply load_ledger_after. exists x. split; [done|].
  rewrite PyFacts.split_ws_word by done. apply elem_of_cons. by left.
Qed.

Lemma ledger_loaded_persisted store :
  ledger_loaded (run store) ⊆ ledger_persisted (run store).
Proof.
  unfold gather. cbn [ledger_loaded ledger_persisted]. unfold gather_loop.
  apply (gather_loop_ledger_mono shuffle_tf_examples output_directory
           examples_per_record _
           {| already_processed := load_ledger store output_directory;
              shuffled := []; chunk_ops := [] |}).
Qed.

(** C6: the ledger that a run of [gather] persists holds every entry of
    the ledger it loaded, as a set in memory and as the set that is read
    back from the file the run leaves; entries are added, never
    removed. *)
Theorem gather_ledger_monotone (store : gmap string string) :
  ledger_loaded (run store) = load_ledger store output_directory
  /\ ledger_loaded (run store) ⊆ ledger_persisted (run store)
  /\ store_after store !! meta_file output_directory
     = Some (Py.join NL (Py.sorted (elements (ledger_persisted (run store)))))
  /\ load_ledger store output_directory
     ⊆ load_ledger (store_after store) output_directory.
Proof.
  split_and!.
  - reflexivity.
  - apply ledger_loaded_persisted.
  - apply gather_store_meta.
  - intros x Hx. apply load_ledger_after_word.
    + by eapply load_ledger_words.
    + by apply ledger_loaded_persisted.
Qed.

End GatherStore.

(** *** Runs of [gather] on a given input tree *)

Section GatherClaims.
Context {Batch : Type}.
Variable shuffle_tf_examples : Z -> list string -> list Batch.
Variable chunk_bytes : Batch -> string.
Variable fs : GFile.
Variables input_directory output_directory : string.
Variable examples_per_record : Z.

Local Abbreviation run store :=
  (gather shuffle_tf_examples fs store input_directory output_directory
          examples_per_record).
Local Abbreviation store_after store :=
  (gather_store shuffle_tf_examples chunk_bytes fs store input_directory
                output_directory examples_per_record).

Lemma ledger_persisted_elem store x :
  x ∈ ledger_persisted (run store) <->
  x ∈ load_ledger store output_directory
  \/ exists item, item ∈ sorted_items fs input_directory /\ x ∈ item.2.
Proof.
  unfold gather, gather_loop. cbn [ledger_persisted].
  by rewrite gather_loop_ledger.
Qed.


(** With paths that are words, a second run on the same input tree
    loads the ledger the first run persisted, skips every generation,
    writes no chunk, persists the same ledger and leaves every file of
    the output side as the first run left it. *)
Lemma gather_rerun_words (store : gmap string string) :
  (forall pat, Forall Py.is_word (Glob fs pat)) ->
  let store1 := store_after store in
  ledger_loaded (run store1) = ledger_persisted (run store)
  /\ fed_to_shuffle (run store1) = []
  /\ chunks_written (fs_ops (run store1)) = []
  /\ ledger_persisted (run store1) = ledger_persisted (run store)
  /\ store_after store1 = store1.
Proof.
  intros Hwords store1.
  assert (forall x, x ∈ ledger_persisted (run store) -> Py.is_word x) as Hw.
  { intros x [Hx|([m files] & Hin & Hx)]%ledger_persisted_elem.
    - by eapply load_ledger_words.
    - apply sorted_items_elem in Hin as [_ ->].
      by eapply Forall_forall in Hx; [|apply Hwords]. }
  assert (load_ledger store1 output_directory = ledger_persisted (run store))
    as Hload.
  { apply set_eq. intros x. subst store1. rewrite load_ledger_after. split.
    - intros (y & Hy & Hx). rewrite PyFacts.split_ws_word in Hx by auto.
      by apply list_elem_of_singleton in Hx as ->.
    - intros Hx. exists x. split; [done|].
      rewrite PyFacts.split_ws_word by auto. apply elem_of_cons. by left. }
  destruct (gather_loop_skip_all_no_ops shuffle_tf_examples output_directory
              examples_per_record (sorted_items fs input_directory)
              (load_ledger store1 output_directory)) as (Hops & Hfed & Hap).
  { intros item Hin. rewrite Hload. unfold gather. cbn [ledger_persisted].
    by apply gather_loop_covers. }
  assert (ledger_persisted (run store1) = ledger_persisted (run store)) as Hsame.
  { unfold gather at 1. cbn [ledger_persisted]. by rewrite Hap. }
  split_and!.
  - exact Hload.
  - exact Hfed.
  - unfold gather. cbn [fs_ops]. by rewrite Hops.
  - exact Hsame.
  - unfold gather_store, gather at 1. cbn [fs_ops]. rewrite Hops, Hap, Hload.
    unfold write_ledger, apply_ops. cbn [app foldl apply_op].
    apply insert_id.
    subst store1. apply gather_store_meta.
Qed.

Lemma take_chunk_ops_meta store (ops : list (FsOp Batch)) ledger k :
  Forall (fun op => exists m i b,
              op = WriteTfExamples (output_record output_directory m i) b) ops ->
  (k <= S (length ops))%nat ->
  apply_ops chunk_bytes store
    (take k (ops ++ write_ledger output_directory ledger))
    !! meta_file output_directory
  = store !! meta_file output_directory.
Proof.
  intros Hchunks Hk. destruct (decide (k <= length ops)%nat) as [Hle|Hgt].
  - rewrite take_app_le by done.
    apply apply_chunk_ops_meta. by apply Forall_take.
  - replace k with (length ops + 1)%nat by lia.
    rewrite take_app_add. cbn [write_ledger take].
    rewrite apply_ops_app. unfold apply_ops at 1. cbn [foldl apply_op].
    by apply apply_chunk_ops_meta.
Qed.

(** C7, amended: [gather] touches the ledger file in its last three
    steps only (open for writing, write, close), after all the chunk
    writes.  Interrupted before the write starts, after any of the chunk
    writes or after the open, the run leaves the ledger file as it was.
    The write overwrites the file in place, it is not replaced by a
    rename: interrupted inside the write, the run leaves the part of the
    new ledger written so far, which may be nothing. *)
Theorem gather_ledger_written_last (store : gmap string string) (k : nat) :
  let r := run store in
  let n := (length (fs_ops r) - 3)%nat in
  let data := Py.join NL (Py.sorted (elements (ledger_persisted r))) in
  (k <= S n)%nat ->
  fs_ops r = take n (fs_ops r)
               ++ [OpenW (meta_file output_directory);
                   FWrite (meta_file output_directory) data;
                   FClose (meta_file output_directory)]
  /\ chunks_written (drop n (fs_ops r)) = []
  /\ interrupted_after chunk_bytes k store (fs_ops r) !! meta_file output_directory
     = store !! meta_file output_directory
  /\ (forall written,
        interrupted_in chunk_bytes (S n) written store (fs_ops r)
          !! meta_file output_directory
        = Some (String.substring 0 written data))
  /\ interrupted_in chunk_bytes (S n) 0 store (fs_ops r)
       !! meta_file output_directory = Some ""
  /\ interrupted_after chunk_bytes (length (fs_ops r)) store (fs_ops r)
       !! meta_file output_directory
     = Some data.
Proof.
  intros r n data Hk.
  destruct (gather_chunk_ops shuffle_tf_examples fs input_directory
              output_directory examples_per_record store) as (ops & Hops & Hchunks).
  fold r in Hops.
  assert (n = length ops) as Hn.
  { subst n. rewrite Hops, length_app. cbn [write_ledger length]. lia. }
  assert (take n (fs_ops r) = ops) as Htake.
  { rewrite Hops, Hn. by rewrite take_app_length. }
  assert (forall written,
            interrupted_in chunk_bytes (S n) written store (fs_ops r)
              !! meta_file output_directory
            = Some (String.substring 0 written data)) as Hin.
  { intros written. unfold interrupted_in. rewrite Hops, Hn.
    replace (S (length ops)) with (length ops + 1)%nat by lia.
    rewrite lookup_app_r by lia.
    replace (length ops + 1 - length ops)%nat with 1%nat by lia.
    cbn [write_ledger lookup list_lookup]. apply lookup_insert_eq. }
  unfold interrupted_after. split_and!.
  - by rewrite Htake.
  - by rewrite Hops, Hn, drop_app_length.
  - rewrite Hops. apply take_chunk_ops_meta; [done|lia].
  - exact Hin.
  - rewrite Hin. by destruct data.
  - rewrite firstn_all. apply gather_store_meta.
Qed.

End GatherClaims.

(** *** The aggregator on concrete trees *)

Section GatherScenarios.
Import Scenario.

Lemma tree_plain_words pat : Forall Py.is_word (Glob tree_plain pat).
Proof.
  unfold tree_plain. cbn [Glob].
  repeat (case_match; [by repeat constructor|]). constructor.
Qed.

(** The second run over [tree_plain] finds nothing to do. *)
Example gather_rerun_tree_plain :
  let store1 := gather_store shuffle_in_order names_bytes tree_plain ∅ "in" "out" 1 in
  chunks_written (fs_ops (gather shuffle_in_order tree_plain store1 "in" "out" 1)) = []
  /\ ledger_persisted (gather shuffle_in_order tree_plain store1 "in" "out" 1)
     = ledger_persisted (gather shuffle_in_order tree_plain ∅ "in" "out" 1).
Proof.
  intros store1.
  destruct (gather_rerun_words shuffle_in_order names_bytes tree_plain
              "in" "out" 1 ∅ tree_plain_words) as (_ & _ & Hc & Hl & _).
  by split.
Qed.

(** C1 at an input directory whose name has a blank: the ledger file
    written by the first run is read back split at the blank, so the
    second run over the unchanged tree does not skip the generation; it
    writes its chunk again and persists a ledger with two more
    entries. *)
Theorem gather_rerun_blank_in_path :
  let r1 := gather shuffle_in_order tree_spaced ∅ "my data" "out" 10000 in
  let store1 :=
    gather_store shuffle_in_order names_bytes tree_spaced ∅ "my data" "out" 10000 in
  let r2 := gather shuffle_in_order tree_spaced store1 "my data" "out" 10000 in
  elements (ledger_persisted r1) = ["my data/m0/a.tfrecord.zz"]
  /\ store1 !! "out/meta.txt" = Some "my data/m0/a.tfrecord.zz"
  /\ elements (ledger_loaded r2) = ["my"; "data/m0/a.tfrecord.zz"]
  /\ fed_to_shuffle r2 = [("m0", ["my data/m0/a.tfrecord.zz"])]
  /\ chunks_written (fs_ops r2) = ["out/m0-0.tfrecord.zz"]
  /\ elements (ledger_persisted r2)
     = ["my data/m0/a.tfrecord.zz"; "my"; "data/m0/a.tfrecord.zz"]
  /\ ledger_persisted r2 <> ledger_persisted r1.
Proof.
  intros r1 store1 r2. split_and!; try (vm_compute; reflexivity).
  intros Heq. apply (f_equal elements) in Heq. vm_compute in Heq. discriminate.
Qed.



(** C7 as stated fails: interrupted inside the write of the ledger
    file, the run leaves an empty ledger file, or one that holds the
    start of the new ledger and ends in the middle of an entry; in both
    cases not the ledger persisted before. *)
Lemma gather_interrupted_ledger_lost :
  let r := gather shuffle_in_order tree_plain store_one_ledgered "in" "out" 1 in
  let emptied := interrupted_in names_bytes 4 0 store_one_ledgered (fs_ops r) in
  let half := interrupted_in names_bytes 4 30 store_one_ledgered (fs_ops r) in
  fs_ops r !! 4%nat
  = Some (FWrite "out/meta.txt"
            ("in/m0/a.tfrecord.zz" +:+ NL +:+ "in/m0/b.tfrecord.zz" +:+ NL
             +:+ "in/m1/c.tfrecord.zz"))
  /\ store_one_ledgered !! meta_file "out" = Some "in/m0/a.tfrecord.zz"
  /\ emptied !! meta_file "out" = Some ""
  /\ half !! meta_file "out" = Some ("in/m0/a.tfrecord.zz" +:+ NL +:+ "in/m0/b.tf")
  /\ elements (load_ledger store_one_ledgered "out") = ["in/m0/a.tfrecord.zz"]
  /\ elements (load_ledger emptied "out") = []
  /\ "in/m0/b.tf" ∈ load_ledger half "out".
Proof. intros r emptied half. split_and!; vm_compute; reflexivity. Qed.

(** C7, amended, at the same run interrupted after the ledger file is
    opened and before it is written. *)
Lemma gather_ledger_written_last_witness :
  (4 <= S (length (fs_ops (gather shuffle_in_order tree_plain store_one_ledgered
                             "in" "out" 1)) - 3))%nat
  /\ interrupted_after names_bytes 4 store_one_ledgered
       (fs_ops (gather shuffle_in_order tree_plain store_one_ledgered "in" "out" 1))
       !! meta_file "out"
     = store_one_ledgered !! meta_file "out".
Proof.
  assert (4 <= S (length (fs_ops (gather shuffle_in_order tree_plain
                                    store_one_ledgered "in" "out" 1)) - 3))%nat
    as H by (vm_compute; lia).
  split; [exact H|].
  exact (proj1 (proj2 (proj2
    (gather_ledger_written_last shuffle_in_order names_bytes tree_plain
       "in" "out" 1 store_one_ledgered 4 H)))).
Defined.

End GatherScenarios.

(** * Further properties *)

(** ** Lines of commands: joining and splitting *)

Section JoinSplit.
Import Py.

Lemma split_fields_newline_free_field c :
  contains_char "010" c = false -> split_fields NL 0 c = (c, []).
Proof.
  induction c as [|a c IH]; [done|].
  cbn [contains_char]. intros [Ha Hc]%orb_false_elim.
  rewrite split_fields_newline_step, (Ascii.eqb_sym "010"%char a), Ha.
  by rewrite IH.
Qed.

Lemma split_fields_newline_app c rest :
  contains_char "010" c = false ->
  split_fields NL 0 (c +:+ String "010" rest) =
    (c, (split_fields NL 0 rest).1 :: (split_fields NL 0 rest).2).
Proof.
  induction c as [|a c IH].
  - intros _. rewrite PyFacts.append_empty_l, split_fields_newline_step.
    by rewrite Ascii.eqb_refl.
  - cbn [contains_char]. intros [Ha Hc]%orb_false_elim.
    rewrite PyFacts.append_cons, split_fields_newline_step.
    rewrite (Ascii.eqb_sym "010"%char a), Ha. by rewrite IH.
Qed.

Lemma split_fields_join c cs :
  Forall (fun cmd => contains_char "010" cmd = false) (c :: cs) ->
  split_fields NL 0 (join NL (c :: cs)) = (c, cs).
Proof.
  revert c. induction cs as [|c' cs IH]; intros c Hfree.
  - apply Forall_cons in Hfree as [Hc _].
    by apply split_fields_newline_free_field.
  - apply Forall_cons in Hfree as [Hc Hcs].
    rewrite PyFacts.join_cons2. change (NL +:+ ?r) with (String "010" r).
    rewrite split_fields_newline_app by done. by rewrite IH.
Qed.

Lemma cmd_list_of_join_cons c cs :
  Forall (fun cmd => contains_char "010" cmd = false) (c :: cs) ->
  cmd_list_of (join NL (c :: cs)) = c :: cs.
Proof. intros Hfree. rewrite cmd_list_of_fields. by rewrite split_fields_join. Qed.

(** X1: joining commands by the newline marker and splitting the line as
    [gtp] does gives the commands back, when there is at least one
    command and none holds the marker. *)
Theorem cmd_list_of_join (cmds : list string) :
  cmds <> [] ->
  Forall (fun cmd => contains_char "010" cmd = false) cmds ->
  split NL (join NL cmds) = inr cmds /\ cmd_list_of (join NL cmds) = cmds.
Proof.
  intros Hne Hfree. destruct cmds as [|c cs]; [done|].
  pose proof (cmd_list_of_join_cons c cs Hfree) as Hcmds.
  split; [|done]. by rewrite split_newline, Hcmds.
Qed.

End JoinSplit.

(** X1 on two commands. *)
Lemma cmd_list_of_join_witness :
  cmd_list_of (Py.join NL ["name"; "quit"]) = ["name"; "quit"].
Proof.
  exact (proj2 (cmd_list_of_join ["name"; "quit"]
                  ltac:(discriminate) ltac:(repeat constructor))).
Defined.

(** ** The whole GTP session *)

Section ProtocolSession.
Context {Engine : Type}.
Variable send : Engine -> string -> string * Engine.
Variable disconnect : Engine -> bool.

Lemma sent_read_line inpt tr : sent (ReadLine inpt :: tr) = sent tr.
Proof. reflexivity. Qed.

Lemma written_read_line inpt tr : written (ReadLine inpt :: tr) = written tr.
Proof. reflexivity. Qed.

Lemma gtp_loop_line_sent e inpt stdin :
  disconnect e = false ->
  sent (trace (gtp_loop send disconnect e (Line inpt :: stdin)))
  = cmd_list_of inpt
    ++ sent (trace (gtp_loop send disconnect
                      (engine_after send e (cmd_list_of inpt)) stdin)).
Proof.
  intros Hd. rewrite gtp_loop_line by done. cbv zeta. cbn [trace].
  rewrite sent_read_line, sent_app, sent_exchange by apply length_replies.
  done.
Qed.

Lemma gtp_loop_line_written e inpt stdin :
  disconnect e = false ->
  written (trace (gtp_loop send disconnect e (Line inpt :: stdin)))
  = replies send e (cmd_list_of inpt)
    ++ written (trace (gtp_loop send disconnect
                         (engine_after send e (cmd_list_of inpt)) stdin)).
Proof.
  intros Hd. rewrite gtp_loop_line by done. cbv zeta. cbn [trace].
  rewrite written_read_line, written_app, written_exchange by apply length_replies.
  done.
Qed.

Lemma gtp_loop_transducer e stdin :
  written (trace (gtp_loop send disconnect e stdin))
  = replies send e (sent (trace (gtp_loop send disconnect e stdin)))
  /\ engine_end (gtp_loop send disconnect e stdin)
     = engine_after send e (sent (trace (gtp_loop send disconnect e stdin))).
Proof.
  revert e. induction stdin as [|[inpt|] stdin IH]; intros e;
    destruct (disconnect e) eqn:Hd;
    try (rewrite gtp_loop_disconnected by done; done);
    try (cbn [gtp_loop]; rewrite Hd; done).
  rewrite gtp_loop_line_sent, gtp_loop_line_written by done.
  rewrite gtp_loop_line by done. cbv zeta. cbn [engine_end].
  destruct (IH (engine_after send e (cmd_list_of inpt))) as [IHw IHe].
  by rewrite replies_app, engine_after_app, <- IHw, <- IHe.
Qed.

(** X2: over a whole session, whatever the input, the replies written
    to the output are the replies of the engine to the commands it was
    sent, in the same order and one for each, and the engine is left as
    those commands leave it. *)
Theorem gtp_replies_follow_commands (e : Engine) (stdin : list Input) :
  let r := gtp send disconnect e stdin in
  written (trace r) = replies send e (sent (trace r))
  /\ length (written (trace r)) = length (sent (trace r))
  /\ engine_end r = engine_after send e (sent (trace r)).
Proof.
  intros r. subst r. unfold gtp. cbn [trace engine_end].
  change (sent (StderrWrite ?s :: StderrFlush :: ?tr)) with (sent tr).
  change (written (StderrWrite ?s :: StderrFlush :: ?tr)) with (written tr).
  destruct (gtp_loop_transducer e stdin) as [Hw He].
  split_and!; [done| |done]. by rewrite Hw, length_replies.
Qed.

(** X3: the loop sends whole lines only.  What it read is a run of
    lines at the start of the input, and the commands sent are the
    sub-commands of those lines, line after line.  It returns with the
    engine disconnected, or raises [EOFError] with all the input read, or
    raises [UnicodeDecodeError] at input that does not decode. *)
Theorem gtp_sends_whole_lines (e : Engine) (stdin : list Input) :
  let r := gtp_loop send disconnect e stdin in
  exists (lines : list string) (rest : list Input),
    stdin = (Line <$> lines) ++ rest
    /\ sent (trace r) = mjoin (cmd_list_of <$> lines)
    /\ match outcome r with
       | Returned => disconnect (engine_end r) = true
       | Raised EOFError => rest = []
       | Raised UnicodeDecodeError => head rest = Some Undecodable
       | Raised _ => False
       end.
Proof.
  cbv zeta. revert e. induction stdin as [|[inpt|] stdin IH]; intros e;
    destruct (disconnect e) eqn:Hd.
  - exists [], []. by rewrite gtp_loop_disconnected.
  - exists [], []. cbn [gtp_loop]. by rewrite Hd.
  - exists [], (Line inpt :: stdin). by rewrite gtp_loop_disconnected.
  - destruct (IH (engine_after send e (cmd_list_of inpt)))
      as (lines & rest & -> & Hsent & Hout).
    exists (inpt :: lines), rest.
    rewrite gtp_loop_line_sent by done.
    rewrite gtp_loop_line by done. cbv zeta. cbn [outcome engine_end].
    split_and!; [done| |done].
    rewrite Hsent. reflexivity.
  - exists [], (Undecodable :: stdin). by rewrite gtp_loop_disconnected.
  - exists [], (Undecodable :: stdin). cbn [gtp_loop]. by rewrite Hd.
Qed.

Lemma gtp_loop_one_per_line cmds e :
  Forall (fun cmd => Py.contains_char "010" cmd = false) cmds ->
  (forall k, (k < length cmds)%nat ->
             disconnect (engine_after send e (take k cmds)) = false) ->
  sent (trace (gtp_loop send disconnect e (Line <$> cmds))) = cmds
  /\ outcome (gtp_loop send disconnect e (Line <$> cmds))
     = outcome (gtp_loop send disconnect (engine_after send e cmds) []).
Proof.
  revert e. induction cmds as [|c cs IH]; intros e Hfree Hlive.
  - split; [|done]. cbn [fmap list_fmap].
    destruct (disconnect e) eqn:Hd.
    + by rewrite gtp_loop_disconnected.
    + cbn [gtp_loop]. by rewrite Hd.
  - apply Forall_cons in Hfree as [Hc Hcs].
    assert (disconnect e = false) as Hd by (apply (Hlive 0%nat); cbn; lia).
    cbn [fmap list_fmap].
    rewrite gtp_loop_line_sent by done.
    rewrite gtp_loop_line by done. cbv zeta. cbn [outcome].
    rewrite cmd_list_of_single by done.
    destruct (IH (engine_after send e [c]) Hcs) as [IHs IHo].
    { intros k Hk. apply (Hlive (S k)). cbn. lia. }
    split.
    + by rewrite IHs.
    + exact IHo.
Qed.

(** X4: a line of commands joined by the newline marker does to the
    engine what the same commands do when sent one per line: the same
    commands reach the engine, the same replies are written, the engine
    ends in the same state and the loop ends the same way; provided the
    engine is not disconnected at the start, no command holds the marker
    and no command but the last leaves the engine disconnected. *)
Theorem gtp_joined_line_as_lines (e : Engine) (cmds : list string) :
  cmds <> [] ->
  Forall (fun cmd => Py.contains_char "010" cmd = false) cmds ->
  (forall k, (k < length cmds)%nat ->
             disconnect (engine_after send e (take k cmds)) = false) ->
  let joined := gtp_loop send disconnect e [Line (Py.join NL cmds)] in
  let apart := gtp_loop send disconnect e (Line <$> cmds) in
  sent (trace joined) = cmds
  /\ sent (trace apart) = cmds
  /\ written (trace joined) = written (trace apart)
  /\ engine_end joined = engine_end apart
  /\ outcome joined = outcome apart.
Proof.
  intros Hne Hfree Hlive joined apart.
  destruct (gtp_loop_one_per_line cmds e Hfree Hlive) as [Hsa Hoa].
  assert (disconnect e = false) as Hd.
  { apply (Hlive 0%nat). destruct cmds; [done|cbn; lia]. }
  assert (cmd_list_of (Py.join NL cmds) = cmds) as Hcmds.
  { destruct cmds as [|c cs]; [done|]. by apply cmd_list_of_join_cons. }
  assert (sent (trace joined) = cmds) as Hsj.
  { subst joined. rewrite gtp_loop_line_sent, Hcmds by done.
    destruct (disconnect (engine_after send e cmds)) eqn:Hd'.
    - rewrite gtp_loop_disconnected by done. apply app_nil_r.
    - cbn [gtp_loop]. rewrite Hd'. apply app_nil_r. }
  destruct (gtp_loop_transducer e [Line (Py.join NL cmds)]) as [Hwj Hej].
  destruct (gtp_loop_transducer e (Line <$> cmds)) as [Hwa Hea].
  fold joined in Hwj, Hej. fold apart in Hwa, Hea, Hsa, Hoa.
  split_and!.
  - exact Hsj.
  - exact Hsa.
  - by rewrite Hwj, Hwa, Hsj, Hsa.
  - by rewrite Hej, Hea, Hsj, Hsa.
  - rewrite Hoa. subst joined. rewrite gtp_loop_line by done.
    cbv zeta. cbn [outcome]. by rewrite Hcmds.
Qed.

End ProtocolSession.

(** X4 on a line that ends with [quit]. *)
Lemma gtp_joined_line_as_lines_witness :
  sent (trace (gtp_loop Scenario.quit_send Scenario.quit_disconnect
                 Scenario.fresh_engine [Line (Py.join NL ["name"; "quit"])]))
  = ["name"; "quit"]
  /\ outcome (gtp_loop Scenario.quit_send Scenario.quit_disconnect
                Scenario.fresh_engine [Line (Py.join NL ["name"; "quit"])])
     = outcome (gtp_loop Scenario.quit_send Scenario.quit_disconnect
                  Scenario.fresh_engine [Line "name"; Line "quit"]).
Proof.
  assert (forall k, (k < 2)%nat ->
            Scenario.quit_disconnect
              (engine_after Scenario.quit_send Scenario.fresh_engine
                 (take k ["name"; "quit"])) = false) as Hlive.
  { intros [|[|k]] Hk; [reflexivity|reflexivity|lia]. }
  pose proof (gtp_joined_line_as_lines Scenario.quit_send Scenario.quit_disconnect
                Scenario.fresh_engine ["name"; "quit"]
                ltac:(discriminate) ltac:(repeat constructor) Hlive) as H.
  cbv zeta in H. destruct H as (Hs & _ & _ & _ & Ho).
  split; [exact Hs | exact Ho].
Defined.

(** ** The names kept by a slice of a sorted list *)

Section SortedSlices.

Lemma sorted_StronglySorted l : StronglySorted String.le (Py.sorted l).
Proof. apply (StronglySorted_merge_sort String.le). Qed.

(** Cut anywhere, a sorted list has its smaller names before the cut. *)
Lemma sorted_cut n l :
  Forall (fun x => Forall (String.le x) (drop n (Py.sorted l)))
         (take n (Py.sorted l)).
Proof.
  apply Forall_forall. intros x Hx. apply Forall_forall. intros y Hy.
  eapply (StronglySorted_app_1_elem_of String.le); [|exact Hx|exact Hy].
  rewrite take_drop. apply sorted_StronglySorted.
Qed.

End SortedSlices.

(** ** Training: which chunks, and when it starts *)

Section TrainingExtras.
Variable fs : GFile.
Variables working_dir chunk_dir model_save_path : string.
Variable generation_num : Z.

(** X5: [train_dir] either finds no chunk file and raises [IndexError]
    before the trainer is called, or trains: it announces the first and
    the last name of the window, trains on the whole window, exports the
    model and freezes the graph, in this order. *)
Theorem train_dir_outcome :
  let found := Glob fs (Py.path_join chunk_dir ["*.tfrecord.zz"]) in
  let window := train_dir_records fs chunk_dir in
  (found = []
   /\ train_dir fs working_dir chunk_dir model_save_path generation_num
      = inl IndexError)
  \/ (found <> []
      /\ exists first lst,
          head window = Some first /\ last window = Some lst
          /\ train_dir fs working_dir chunk_dir model_save_path generation_num
             = inr [PrintTrainingOn first lst;
                    DualNetTrain working_dir window generation_num;
                    ExportModel working_dir model_save_path;
                    FreezeGraph model_save_path]).
Proof.
  intros found window. pose proof (train_dir_records_nil fs chunk_dir) as Hnil.
  fold found window in Hnil. unfold train_dir. fold window.
  destruct window as [|first l] eqn:Hw.
  - left. split; [by apply Hnil|done].
  - right. split.
    + intros Hf. by apply Hnil in Hf.
    + unfold train. cbn [lookup list_lookup head].
      destruct (last (first :: l)) as [lst|] eqn:Hlast.
      * by exists first, lst.
      * by apply last_None in Hlast.
Qed.

(** X6: the window of [train_dir] is the end of the sorted chunk list:
    the chunks left out come before it, and each of them sorts at or
    below every chunk of the window. *)
Theorem train_dir_keeps_last_names :
  let all := Py.sorted (Glob fs (Py.path_join chunk_dir ["*.tfrecord.zz"])) in
  let window := train_dir_records fs chunk_dir in
  let dropped := take (length all - Z.to_nat (WINDOW_SIZE / EXAMPLES_PER_RECORD)) all in
  dropped ++ window = all
  /\ Forall (fun x => Forall (String.le x) window) dropped
  /\ (length all <= Z.to_nat (WINDOW_SIZE / EXAMPLES_PER_RECORD) -> dropped = [])%nat.
Proof.
  intros all window dropped. subst window dropped.
  rewrite train_dir_records_drop. cbv zeta. fold all.
  split_and!.
  - apply take_drop.
  - apply sorted_cut.
  - intros Hle. replace (_ - _)%nat with 0%nat by lia. done.
Qed.

End TrainingExtras.

(** X6 at a directory of three chunks. *)
Lemma train_dir_keeps_last_names_witness :
  take (length (Py.sorted (Glob Scenario.tree_chunks
                             (Py.path_join "c" ["*.tfrecord.zz"])))
        - Z.to_nat (WINDOW_SIZE / EXAMPLES_PER_RECORD))
       (Py.sorted (Glob Scenario.tree_chunks (Py.path_join "c" ["*.tfrecord.zz"])))
  = [].
Proof.
  apply (proj2 (proj2 (train_dir_keeps_last_names Scenario.tree_chunks "c"))).
  vm_compute. lia.
Defined.

(** ** Path components *)

Section PathComponents.
Import Py PyPath.

Lemma basename_slash_free b : contains_char "/" b = false -> basename b = b.
Proof.
  destruct b as [|c b]; [done|]. cbn [contains_char basename].
  intros [Hc Hb]%orb_false_elim. by rewrite Hb, Hc.
Qed.

Lemma contains_char_append c x y :
  contains_char c (x +:+ y) = contains_char c x || contains_char c y.
Proof.
  induction x as [|a x IH]; [done|].
  rewrite PyFacts.append_cons. cbn [contains_char]. by rewrite IH, orb_assoc.
Qed.

Lemma basename_append_slash x b :
  contains_char "/" b = false -> basename (x +:+ String "/" b) = b.
Proof.
  intros Hb. induction x as [|a x IH].
  - rewrite PyFacts.append_empty_l. cbn [basename]. by rewrite Hb.
  - rewrite PyFacts.append_cons. cbn [basename].
    rewrite contains_char_append. cbn [contains_char].
    rewrite Ascii.eqb_refl, orb_true_r. exact IH.
Qed.

Lemma endswith_slash_inv p :
  endswith_slash p = true -> exists x, p = x +:+ "/".
Proof.
  unfold endswith_slash. induction p as [|a p IH]; [done|].
  cbn [last_char]. destruct (last_char p) as [c|] eqn:Hl.
  - intros [x ->]%IH. by exists (String a x).
  - intros Ha%Ascii.eqb_eq. subst a. exists "".
    destruct p as [|b p]; [done|]. cbn [last_char] in Hl.
    by destruct (last_char p).
Qed.

Lemma append_assoc x y z : (x +:+ y) +:+ z = x +:+ (y +:+ z).
Proof. induction x as [|a x IH]; [done|]. rewrite !PyFacts.append_cons. by rewrite IH. Qed.

Lemma is_prefix_slash_free b :
  contains_char "/" b = false -> is_prefix "/" b = false.
Proof.
  destruct b as [|c b]; [done|]. cbn [contains_char is_prefix].
  intros [Hc _]%orb_false_elim. rewrite andb_true_r.
  by rewrite Ascii.eqb_sym.
Qed.

Lemma basename_path_join2 dir b :
  contains_char "/" b = false -> basename (path_join2 dir b) = b.
Proof.
  intros Hb. unfold path_join2.
  rewrite is_prefix_slash_free by done.
  destruct (String.eqb_spec dir "") as [->|Hne]; cbn [orb].
  { rewrite PyFacts.append_empty_l. by apply basename_slash_free. }
  destruct (endswith_slash dir) eqn:He.
  - apply endswith_slash_inv in He as [x ->].
    rewrite append_assoc. change ("/" +:+ b) with (String "/" b).
    by apply basename_append_slash.
  - change ("/" +:+ b) with (String "/" b). by apply basename_append_slash.
Qed.

(** X7: the base name of a file joined to a directory is the file name,
    for a file name without a slash: [os.path.basename] undoes
    [os.path.join]; and a base name never holds a slash. *)
Theorem basename_path_join (dir b : string) :
  contains_char "/" b = false ->
  basename (path_join dir [b]) = b
  /\ forall p, contains_char "/" (basename p) = false.
Proof.
  intros Hb. split; [by apply basename_path_join2|].
  induction p as [|c p IH]; [done|]. cbn [basename].
  destruct (contains_char "/" p) eqn:Hp; [done|].
  destruct (Ascii.eqb_spec c "/") as [->|Hc]; [done|].
  cbn [contains_char]. rewrite Hp, orb_false_r. by apply Ascii.eqb_neq.
Qed.

(** A path is its head followed by its base name, and the base name
    has no slash. *)
Lemma head_of_basename p :
  head_of p +:+ basename p = p /\ contains_char "/" (basename p) = false.
Proof.
  induction p as [|c p [IH1 IH2]]; [done|]. cbn [head_of basename].
  destruct (contains_char "/" p) eqn:Hp.
  - split; [|done]. by rewrite PyFacts.append_cons, IH1.
  - destruct (Ascii.eqb_spec c "/") as [->|Hc].
    + split; [done|]. done.
    + split; [done|]. cbn [contains_char]. rewrite Hp, orb_false_r.
      by apply Ascii.eqb_neq.
Qed.

End PathComponents.

(** X7 on a record file of a holdout directory. *)
Lemma basename_path_join_witness :
  PyPath.basename (Py.path_join "data/holdout" ["1525132800-host1.tfrecord.zz"])
  = "1525132800-host1.tfrecord.zz".
Proof.
  exact (proj1 (basename_path_join "data/holdout" "1525132800-host1.tfrecord.zz"
                  eq_refl)).
Defined.

(** ** Validation *)

Section ValidateExtras.
Variable fs : GFile.
Variable working_dir : string.
Variables checkpoint_name validate_name : option string.

Lemma foldl_extend_glob (dirs : list string) (acc : list string) :
  foldl (fun tf_records record_dir =>
           tf_records ++ Glob fs (Py.path_join record_dir ["*.zz"])) acc dirs
  = acc ++ (dirs ≫= fun d => Glob fs (Py.path_join d ["*.zz"])).
Proof.
  revert acc. induction dirs as [|d dirs IH]; intros acc; cbn [foldl].
  - by rewrite app_nil_r.
  - rewrite IH. cbn [mbind list_bind]. by rewrite app_assoc.
Qed.

Lemma validate_records_bind dirs :
  validate_records fs dirs = dirs ≫= fun d => Glob fs (Py.path_join d ["*.zz"]).
Proof. unfold validate_records. by rewrite foldl_extend_glob. Qed.

(** X8: [validate] collects the globs of its directories one after the
    other, in the order of the directories, neither sorted nor bounded.
    With nothing found (no directory given, or only empty ones) it raises
    [IndexError] before the network is called; otherwise the network
    validates on all that was found. *)
Theorem validate_outcome (tf_record_dirs : list string) :
  let found := tf_record_dirs ≫= fun d => Glob fs (Py.path_join d ["*.zz"]) in
  validate_records fs tf_record_dirs = found
  /\ match validate fs working_dir tf_record_dirs checkpoint_name validate_name with
     | inl x =>
         x = IndexError
         /\ Forall (fun d => Glob fs (Py.path_join d ["*.zz"]) = []) tf_record_dirs
     | inr evs =>
         found <> []
         /\ exists message,
             evs = [TimerValidating message;
                    DualNetValidate working_dir found checkpoint_name validate_name]
     end.
Proof.
  intros found. pose proof (validate_records_bind tf_record_dirs) as Hrec.
  fold found in Hrec. split; [exact Hrec|].
  unfold validate. rewrite Hrec.
  destruct found as [|first l] eqn:Hfound.
  - cbn [lookup list_lookup]. split; [done|].
    apply Forall_forall. intros d Hd.
    destruct (Glob fs (Py.path_join d ["*.zz"])) as [|x xs] eqn:Hg; [done|].
    assert (x ∈ found) as Hx.
    { subst found. apply list_elem_of_bind. exists d. split; [|done].
      rewrite Hg. apply elem_of_cons. by left. }
    rewrite Hfound in Hx. by apply elem_of_nil in Hx.
  - cbn [lookup list_lookup].
    destruct (last (first :: l)) as [lst|] eqn:Hlast.
    + split; [done|]. by eexists.
    + by apply last_None in Hlast.
Qed.

(** X9: when the first and the last record found lie right in their
    directories, the message of [validate] names them without the
    directories. *)
Theorem validate_message_names (tf_record_dirs : list string)
    (d1 n1 d2 n2 : string) :
  head (validate_records fs tf_record_dirs) = Some (Py.path_join d1 [n1]) ->
  last (validate_records fs tf_record_dirs) = Some (Py.path_join d2 [n2]) ->
  Py.contains_char "/" n1 = false ->
  Py.contains_char "/" n2 = false ->
  validate fs working_dir tf_record_dirs checkpoint_name validate_name
  = inr [TimerValidating ("Validating from " +:+ n1 +:+ " to " +:+ n2);
         DualNetValidate working_dir (validate_records fs tf_record_dirs)
                         checkpoint_name validate_name].
Proof.
  intros Hhead Hlast Hn1 Hn2. unfold validate.
  destruct (validate_records fs tf_record_dirs) as [|first l] eqn:Hrec; [done|].
  cbn [head] in Hhead. injection Hhead as ->.
  cbn [lookup list_lookup]. rewrite Hlast.
  unfold Py.path_join. cbn [foldl].
  by rewrite !basename_path_join2.
Qed.

End ValidateExtras.

(** X9 on two holdout directories. *)
Lemma validate_message_names_witness :
  validate Scenario2.tree_holdout "work" ["h1"; "h2"] None (Some "selfplay")
  = inr [TimerValidating "Validating from b.tfrecord.zz to c.tfrecord.zz";
         DualNetValidate "work"
           ["h1/b.tfrecord.zz"; "h1/a.tfrecord.zz"; "h2/c.tfrecord.zz"]
           None (Some "selfplay")].
Proof.
  exact (validate_message_names Scenario2.tree_holdout "work" None (Some "selfplay")
           ["h1"; "h2"] "h1" "b.tfrecord.zz" "h2" "c.tfrecord.zz"
           eq_refl eq_refl eq_refl eq_refl).
Defined.

(** ** Bootstrap *)

Section BootstrapExtras.
Import Bootstrap.

Local Ltac not_in_events H :=
  exfalso; destruct H as [? H];
  repeat (apply elem_of_cons in H as [H|H]; [discriminate H|]);
  by apply elem_of_nil in H.

(** X10: [bootstrap] freezes the graph only when a working directory
    is given: with the temporary directory it bootstraps and exports but
    does not freeze, and the temporary directory is entered first and
    left last, also when an exception is raised.  Without a path to save
    the model it raises [TypeError] before the network is built or
    exported. *)
Theorem bootstrap_outcome (tmp : string) (working_dir model_save_path : option string) :
  let evs := (bootstrap tmp working_dir model_save_path).1 in
  let raised := (bootstrap tmp working_dir model_save_path).2 in
  ((exists path, FreezeGraph path ∈ evs)
   <-> is_Some working_dir /\ is_Some model_save_path)
  /\ (raised = Some TypeError <-> model_save_path = None)
  /\ (raised = None <-> is_Some model_save_path)
  /\ ((exists wd, DualNetBootstrap wd ∈ evs) <-> is_Some model_save_path)
  /\ ((exists wd path, ExportModel wd path ∈ evs) <-> is_Some model_save_path)
  /\ (forall path, model_save_path = Some path ->
      evs = match working_dir with
            | None =>
                [EnterTemporaryDirectory tmp;
                 EnsureDirExists tmp;
                 EnsureDirExists (PyPath.dirname path);
                 DualNetBootstrap tmp;
                 ExportModel tmp path;
                 ExitTemporaryDirectory tmp]
            | Some wd =>
                [EnsureDirExists wd;
                 EnsureDirExists (PyPath.dirname path);
                 DualNetBootstrap wd;
                 ExportModel wd path;
                 FreezeGraph path]
            end)
  /\ (working_dir = None ->
      head evs = Some (EnterTemporaryDirectory tmp)
      /\ last evs = Some (ExitTemporaryDirectory tmp)).
Proof.
  destruct working_dir as [wd|], model_save_path as [path|]; cbn;
    split_and!; try done;
    try (by intros ? [= <-]);
    try (split; [by eauto | by intros [? [=]] || by intros [=]]);
    try (intros H; by not_in_events H);
    split;
    first [ by intros [? [=]]
          | by intros [[? [=]] ?]
          | by intros [? [? [=]]]
          | by (intros _; repeat split; eexists)
          | by (intros _; eexists; repeat constructor)
          | by (intros _; do 2 eexists; repeat constructor)
          | by (intros H; not_in_events H)
          | by (intros [? H]; not_in_events H) ].
Qed.

End BootstrapExtras.

(** X10 without a working directory. *)
Lemma bootstrap_outcome_witness :
  head (Bootstrap.bootstrap "/tmp/b0" None (Some "models/000000-bootstrap")).1
  = Some (Bootstrap.EnterTemporaryDirectory "/tmp/b0")
  /\ last (Bootstrap.bootstrap "/tmp/b0" None (Some "models/000000-bootstrap")).1
     = Some (Bootstrap.ExitTemporaryDirectory "/tmp/b0").
Proof.
  exact (proj2 (proj2 (proj2 (proj2 (proj2 (proj2
    (bootstrap_outcome "/tmp/b0" None (Some "models/000000-bootstrap")))))))
    eq_refl).
Defined.

(** ** Checkpoint conversion *)

Section ConvertExtras.
Import Convert.

Lemma elem_of_stored_var_names nodes v :
  v ∈ stored_var_names nodes <->
  exists n, n ∈ nodes /\ name n = v /\ op n = "VariableV2".
Proof.
  unfold stored_var_names.
  rewrite elem_of_list_to_set, list_elem_of_fmap.
  split.
  - intros (n & -> & [Hop Hn]%list_elem_of_filter). by exists n.
  - intros (n & Hn & <- & Hop). exists n. split; [done|].
    by apply list_elem_of_filter.
Qed.

(** X11: [convert] restores the global variables that the stored graph
    has as a [VariableV2] node, in their order, and never [global_step];
    it then closes the session.  When the stored graph has no
    [VariableV2] node named [global_step], removing that name raises
    [KeyError]: nothing is restored or saved, and the session that was
    opened is not closed. *)
Theorem convert_outcome (nodes : list Node) (global_variables : list string)
    (global_step_value : Z) (load_file dest_file : string) :
  let evs := (convert nodes global_variables global_step_value load_file dest_file).1 in
  NewSession ∈ evs
  /\ match (convert nodes global_variables global_step_value load_file dest_file).2 with
     | None =>
         (exists n, n ∈ nodes /\ name n = "global_step" /\ op n = "VariableV2")
         /\ (exists var_list,
               restored evs = [var_list]
               /\ var_list `sublist_of` global_variables
               /\ (forall v,
                     v ∈ var_list <->
                     v ∈ global_variables /\ v <> "global_step"
                     /\ exists n, n ∈ nodes /\ name n = v /\ op n = "VariableV2"))
         /\ Save dest_file ∈ evs
         /\ CloseSession ∈ evs
     | Some x =>
         x = KeyError
         /\ (¬ exists n, n ∈ nodes /\ name n = "global_step" /\ op n = "VariableV2")
         /\ restored evs = []
         /\ (Save dest_file ∉ evs)
         /\ (CloseSession ∉ evs)
     end.
Proof.
  intros evs. subst evs. unfold convert.
  destruct (decide ("global_step" ∈ stored_var_names nodes)) as [Hin|Hout].
  - rewrite bool_decide_eq_true_2 by done. cbn [fst snd].
    split; [apply elem_of_app; left; by repeat constructor|].
    split_and!.
    + by apply elem_of_stored_var_names.
    + eexists. split; [reflexivity|]. split; [apply sublist_filter|].
      intros v. rewrite list_elem_of_filter.
      rewrite elem_of_difference, elem_of_singleton, elem_of_stored_var_names.
      tauto.
    + apply elem_of_app. right. by repeat constructor.
    + apply elem_of_app. right. by repeat constructor.
  - rewrite bool_decide_eq_false_2 by done. cbn [fst snd].
    split; [by repeat constructor|].
    split_and!.
    + done.
    + by rewrite <- elem_of_stored_var_names.
    + reflexivity.
    + intros H. repeat (apply elem_of_cons in H as [H|H]; [discriminate H|]).
      by apply elem_of_nil in H.
    + intros H. repeat (apply elem_of_cons in H as [H|H]; [discriminate H|]).
      by apply elem_of_nil in H.
Qed.

End ConvertExtras.

(** ** Self-play: thresholds that decide before the draw *)

Section SelfplayExtras.
Context {Example : Type}.

(** X12: a draw of [random.random()] lies in [0, 1), so with
    [holdout_pct] at or below 0 the game always goes to the output
    directory, and with [holdout_pct] at or above 1 always to the holdout
    directory. *)
Theorem selfplay_threshold_extremes (played : Played Example) (env : Env)
    (output_dir holdout_dir output_sgf : string) (holdout_pct : Q) :
  (0 <= draws env (next_draw env))%Q ->
  (draws env (next_draw env) < 1)%Q ->
  (holdout_pct <= 0 \/ 1 <= holdout_pct)%Q ->
  let name :=
    (Py.str_of_Z (unix_time env) +:+ "-" +:+ hostname env) +:+ ".tfrecord.zz" in
  example_files (selfplay played env output_dir holdout_dir output_sgf holdout_pct).1
  = [(Py.path_join (if Qle_bool 1 holdout_pct then holdout_dir else output_dir)
                   [name],
      tf_examples played)].
Proof.
  intros Hr0 Hr1 Hpct name. unfold selfplay, random. cbn [fst snd].
  unfold example_files. cbn [omap list_omap]. fold name.
  destruct (float_lt (draws env (next_draw env)) holdout_pct) eqn:Hlt.
  - apply float_lt_spec in Hlt.
    destruct Hpct as [Hlow|Hhigh].
    + exfalso. apply (Qlt_irrefl 0).
      eapply Qle_lt_trans; [exact Hr0|]. eapply Qlt_le_trans; [exact Hlt|exact Hlow].
    + apply Qle_bool_iff in Hhigh. by rewrite Hhigh.
  - destruct (Qle_bool 1 holdout_pct) eqn:Hhigh; [|done].
    apply Qle_bool_iff in Hhigh.
    assert (float_lt (draws env (next_draw env)) holdout_pct = true) as Hlt'.
    { apply float_lt_spec. eapply Qlt_le_trans; [exact Hr1|exact Hhigh]. }
    congruence.
Qed.

End SelfplayExtras.

(** X12 with holdout switched off. *)
Lemma selfplay_threshold_extremes_witness :
  example_files (selfplay Scenario.played_game (Scenario.env_drawing (1 # 2))
                   "data/selfplay" "data/holdout" "sgf/" 0).1
  = [("data/selfplay/1525132800-host1.tfrecord.zz", [7%nat; 8%nat; 9%nat])].
Proof.
  assert (0 <= draws (Scenario.env_drawing (1 # 2))
                     (next_draw (Scenario.env_drawing (1 # 2))))%Q as H0
    by (vm_compute; discriminate).
  assert (draws (Scenario.env_drawing (1 # 2))
                (next_draw (Scenario.env_drawing (1 # 2))) < 1)%Q as H1
    by (vm_compute; reflexivity).
  assert (0 <= 0 \/ 1 <= 0)%Q as H2 by (left; vm_compute; discriminate).
  pose proof (selfplay_threshold_extremes Scenario.played_game
                (Scenario.env_drawing (1 # 2))
                "data/selfplay" "data/holdout" "sgf/" 0 H0 H1 H2) as H.
  cbv zeta in H. vm_compute in H. vm_compute. exact H.
Defined.

(** ** The aggregator: generations, chunk files and the rest of the store *)

Section StripFacts.
Import Py.

Lemma last_char_cons_some a b s : last_char (String a (String b s)) = last_char (String b s).
Proof. cbn [last_char]. by destruct (last_char s). Qed.

Lemma endswith_slash_rstrip s : endswith_slash (rstrip "/" s) = false.
Proof.
  induction s as [|a s IH]; [done|]. cbn [rstrip].
  destruct (rstrip "/" s) as [|b r] eqn:Hr.
  - destruct (Ascii.eqb a "/") eqn:Ha; [done|].
    unfold endswith_slash. cbn [last_char]. exact Ha.
  - unfold endswith_slash in *. by rewrite last_char_cons_some.
Qed.

Lemma endswith_slash_lstrip s :
  endswith_slash s = false -> endswith_slash (lstrip "/" s) = false.
Proof.
  induction s as [|a s IH]; [done|]. cbn [lstrip].
  destruct (Ascii.eqb a "/") eqn:Ha; [|done].
  intros Hs. apply IH. destruct s as [|b s]; [done|].
  unfold endswith_slash in *. by rewrite last_char_cons_some in Hs.
Qed.

Lemma is_prefix_slash_lstrip s t :
  is_prefix "/" t = false -> is_prefix "/" (lstrip "/" s +:+ t) = false.
Proof.
  intros Ht. induction s as [|a s IH]; [done|]. cbn [lstrip].
  destruct (Ascii.eqb a "/") eqn:Ha; [exact IH|].
  rewrite PyFacts.append_cons. cbn [is_prefix].
  by rewrite Ascii.eqb_sym, Ha.
Qed.

Lemma is_prefix_append x y : is_prefix x (x +:+ y) = true.
Proof.
  induction x as [|a x IH]; [done|].
  rewrite PyFacts.append_cons. cbn [is_prefix]. by rewrite Ascii.eqb_refl, IH.
Qed.

(** A relative name joined to a directory lies under the directory. *)
Lemma is_prefix_path_join2 dir b :
  is_prefix "/" b = false -> is_prefix dir (path_join2 dir b) = true.
Proof.
  intros Hb. unfold path_join2. rewrite Hb.
  destruct (_ || _); apply is_prefix_append.
Qed.

(** A stripped name neither starts nor ends with a slash. *)
Lemma strip_slashes s :
  is_prefix "/" (strip "/" s) = false /\ endswith_slash (strip "/" s) = false.
Proof.
  unfold strip. split.
  - pose proof (is_prefix_slash_lstrip (rstrip "/" s) "" eq_refl) as H.
    clear -H. revert H. generalize (lstrip "/" (rstrip "/" s)). intros r.
    assert (r +:+ "" = r) as ->; [|done].
    induction r as [|a r IH]; [done|]. by rewrite PyFacts.append_cons, IH.
  - apply endswith_slash_lstrip, endswith_slash_rstrip.
Qed.

Lemma output_record_under out m i :
  is_prefix out (output_record out (strip "/" m) i) = true.
Proof.
  unfold output_record, path_join. cbn [foldl].
  apply is_prefix_path_join2. unfold strip.
  by apply is_prefix_slash_lstrip.
Qed.

End StripFacts.

Section GatherExtras.
Context {Batch : Type}.
Variable shuffle_tf_examples : Z -> list string -> list Batch.
Variable chunk_bytes : Batch -> string.
Variable fs : GFile.
Variables input_directory output_directory : string.
Variable examples_per_record : Z.

Local Abbreviation run store :=
  (gather shuffle_tf_examples fs store input_directory output_directory
          examples_per_record).
Local Abbreviation store_after store :=
  (gather_store shuffle_tf_examples chunk_bytes fs store input_directory
                output_directory examples_per_record).
Local Abbreviation step :=
  (gather_model shuffle_tf_examples output_directory examples_per_record).
Local Abbreviation pattern m :=
  (Py.path_join input_directory [m; "*.tfrecord.zz"]).
Local Abbreviation item_ops :=
  (fun item : Item =>
     imap (fun i b => WriteTfExamples (output_record output_directory item.1 i) b)
          (shuffle_tf_examples examples_per_record item.2)).
Local Abbreviation item_chunks :=
  (fun item : Item =>
     imap (fun i (_ : Batch) => output_record output_directory item.1 i)
          (shuffle_tf_examples examples_per_record item.2)).

(** *** Every model of the listing has its item *)

Lemma foldl_insert_glob_notin (l : list string) (d : gmap string (list string)) m :
  m ∉ l ->
  foldl (fun d model => <[model := Glob fs (pattern model)]> d) d l !! m = d !! m.
Proof.
  revert d. induction l as [|a l IH]; intros d Hm; cbn [foldl]; [done|].
  apply not_elem_of_cons in Hm as [Hne Hm].
  rewrite IH by done. by apply lookup_insert_ne.
Qed.

Lemma foldl_insert_glob_elem (l : list string) (d : gmap string (list string)) m :
  m ∈ l ->
  foldl (fun d model => <[model := Glob fs (pattern model)]> d) d l !! m
  = Some (Glob fs (pattern m)).
Proof.
  revert d. induction l as [|a l IH]; intros d Hm; cbn [foldl].
  { by apply elem_of_nil in Hm. }
  destruct (decide (m ∈ l)) as [Hin|Hout]; [by apply IH|].
  apply elem_of_cons in Hm as [->|Hm]; [|done].
  rewrite foldl_insert_glob_notin by done. apply lookup_insert_eq.
Qed.

Lemma sorted_items_of_model m :
  m ∈ models fs input_directory ->
  (m, Glob fs (pattern m)) ∈ sorted_items fs input_directory.
Proof.
  intros Hm. unfold sorted_items.
  rewrite merge_sort_Permutation, elem_of_map_to_list.
  by apply foldl_insert_glob_elem.
Qed.

Lemma NoDup_sorted_items : NoDup (sorted_items fs input_directory).*1.
Proof.
  unfold sorted_items. rewrite merge_sort_Permutation.
  apply NoDup_fst_map_to_list.
Qed.

(** *** The loop, seen from the generations it fed *)

Lemma gather_loop_ops_of_shuffled items st :
  chunk_ops st = shuffled st ≫= item_ops ->
  chunk_ops (foldl step st items) = shuffled (foldl step st items) ≫= item_ops.
Proof.
  revert st. induction items as [|[m files] items IH]; intros st Hst;
    cbn [foldl]; [done|].
  apply IH.
  destruct (decide (list_to_set files ⊆ already_processed st)) as [Hs|Hs].
  - by rewrite gather_model_skip.
  - rewrite gather_model_take by done. cbn [chunk_ops shuffled].
    rewrite bind_app, Hst. cbn [mbind list_bind]. by rewrite app_nil_r.
Qed.

Lemma gather_loop_shuffled_sublist items st :
  exists fed, shuffled (foldl step st items) = shuffled st ++ fed
              /\ fed `sublist_of` items.
Proof.
  revert st. induction items as [|[m files] items IH]; intros st; cbn [foldl].
  - exists []. by rewrite app_nil_r.
  - destruct (IH (step st (m, files))) as (fed & -> & Hsub).
    destruct (decide (list_to_set files ⊆ already_processed st)) as [Hs|Hs].
    + rewrite gather_model_skip by done. exists fed. split; [done|].
      by apply sublist_cons.
    + rewrite gather_model_take by done. cbn [shuffled].
      exists ((m, files) :: fed). split; [by rewrite <- app_assoc|].
      by apply sublist_skip.
Qed.

Lemma chunks_written_app (ops ops' : list (FsOp Batch)) :
  chunks_written (ops ++ ops') = chunks_written ops ++ chunks_written ops'.
Proof. apply omap_app. Qed.

Lemma chunks_written_imap (f : nat -> string) (batches : list Batch) :
  chunks_written (imap (fun i b => WriteTfExamples (f i) b) batches)
  = imap (fun i _ => f i) batches.
Proof.
  revert f. induction batches as [|b batches IH]; intros f; [done|].
  cbn [imap]. unfold chunks_written in *. cbn [omap list_omap]. f_equal.
  apply (IH (f ∘ S)).
Qed.

Lemma chunks_written_bind (fed : list Item) :
  chunks_written (fed ≫= item_ops) = fed ≫= item_chunks.
Proof.
  induction fed as [|item fed IH]; [done|].
  cbn [mbind list_bind]. rewrite chunks_written_app, IH. f_equal.
  apply chunks_written_imap.
Qed.

Lemma gather_chunks store :
  chunks_written (fs_ops (run store)) = fed_to_shuffle (run store) ≫= item_chunks.
Proof.
  unfold gather, gather_loop. cbn [fs_ops fed_to_shuffle].
  rewrite chunks_written_app, gather_loop_ops_of_shuffled by done.
  rewrite chunks_written_bind. apply app_nil_r.
Qed.

Lemma fed_in_items store item :
  item ∈ fed_to_shuffle (run store) ->
  item ∈ sorted_items fs input_directory
  /\ ¬ list_to_set item.2 ⊆ load_ledger store output_directory.
Proof.
  unfold gather, gather_loop. cbn [fed_to_shuffle].
  intros [Hin|H]%gather_loop_shuffled; [|done].
  by apply elem_of_nil in Hin.
Qed.

(** X13: the chunk files of a run are, for each generation fed to the
    shuffler and in this order, one file per batch the shuffler yields,
    named after the generation and the index of the batch, counted from
    0. *)
Theorem gather_chunk_names (store : gmap string string) :
  chunks_written (fs_ops (run store))
  = fed_to_shuffle (run store) ≫= (fun item =>
      imap (fun i (_ : Batch) => output_record output_directory item.1 i)
           (shuffle_tf_examples examples_per_record item.2))
  /\ length (chunks_written (fs_ops (run store)))
     = sum_list ((fun item =>
                    length (shuffle_tf_examples examples_per_record item.2))
                 <$> fed_to_shuffle (run store)).
Proof.
  split; [apply gather_chunks|].
  rewrite gather_chunks.
  induction (fed_to_shuffle (run store)) as [|item fed IH]; [done|].
  cbn [mbind list_bind fmap list_fmap sum_list sum_list_with].
  rewrite length_app, length_imap, IH. done.
Qed.

(** X14: every chunk file a run writes, and the ledger file, lie under
    the output directory: the model names are stripped of slashes, so no
    name can replace the directory it is joined to. *)
Theorem gather_writes_under_output (store : gmap string string) :
  Forall (fun p => Py.is_prefix output_directory p = true)
         (chunks_written (fs_ops (run store)))
  /\ Py.is_prefix output_directory (meta_file output_directory) = true
  /\ Forall (fun m => Py.is_prefix "/" m = false /\ Py.endswith_slash m = false)
            (models fs input_directory).
Proof.
  split_and!.
  - apply Forall_forall. intros p. rewrite gather_chunks.
    intros ([m files] & Hp & Hfed)%list_elem_of_bind.
    apply fed_in_items in Hfed as [Hitem _].
    apply sorted_items_elem in Hitem as [Hm _].
    unfold models in Hm. apply list_elem_of_fmap in Hm as (x & -> & _).
    apply elem_of_lookup_imap in Hp as (i & b & -> & _).
    apply output_record_under.
  - unfold meta_file, Py.path_join. cbn [foldl].
    by apply is_prefix_path_join2.
  - apply Forall_forall. intros m (x & -> & _)%list_elem_of_fmap.
    apply strip_slashes.
Qed.

(** *** Files the run does not write *)

Lemma apply_op_dom store (op : FsOp Batch) p :
  is_Some (store !! p) -> is_Some (apply_op chunk_bytes store op !! p).
Proof.
  intros Hp. destruct op as [q b|q|q d|q]; cbn [apply_op]; [|done| |done];
    (destruct (decide (q = p)) as [->|Hne];
     [rewrite lookup_insert_eq; by eexists | by rewrite lookup_insert_ne]).
Qed.

Lemma apply_ops_dom store (ops : list (FsOp Batch)) p :
  is_Some (store !! p) -> is_Some (apply_ops chunk_bytes store ops !! p).
Proof.
  revert store. induction ops as [|op ops IH]; intros store Hp; [done|].
  unfold apply_ops in *. cbn [foldl]. by apply IH, apply_op_dom.
Qed.

Lemma apply_chunk_writes_frame store (ops : list (FsOp Batch)) p :
  Forall (fun op => exists m i b,
              op = WriteTfExamples (output_record output_directory m i) b) ops ->
  p ∉ chunks_written ops ->
  apply_ops chunk_bytes store ops !! p = store !! p.
Proof.
  intros Hops. revert store.
  induction Hops as [|op ops (m & i & b & ->) _ IH]; intros store Hp; [done|].
  unfold apply_ops, chunks_written in *. cbn [foldl apply_op omap list_omap] in *.
  apply not_elem_of_cons in Hp as [Hne Hp].
  rewrite IH by done. by apply lookup_insert_ne.
Qed.

(** X15: a run removes no file of the output side, and leaves every file
    as it was except the ledger file and the chunk files it writes. *)
Theorem gather_store_frame (store : gmap string string) (p : string) :
  p <> meta_file output_directory ->
  p ∉ chunks_written (fs_ops (run store)) ->
  store_after store !! p = store !! p
  /\ forall q, is_Some (store !! q) -> is_Some (store_after store !! q).
Proof.
  intros Hmeta Hp. split; [|intros q; apply apply_ops_dom].
  unfold gather_store.
  destruct (gather_chunk_ops shuffle_tf_examples fs input_directory
              output_directory examples_per_record store) as (ops & Hops & Hchunks).
  rewrite Hops in Hp |- *.
  rewrite chunks_written_app in Hp. apply not_elem_of_app in Hp as [Hp _].
  rewrite apply_ops_app. unfold write_ledger, apply_ops at 1.
  cbn [foldl apply_op]. rewrite !lookup_insert_ne by done.
  by apply apply_chunk_writes_frame.
Qed.

(** *** The ledger after a run *)

(** X16: the persisted ledger is the loaded ledger together with all
    the record files of all the models that were looked at, skipped or
    not. *)
Theorem gather_ledger_contents (store : gmap string string) (x : string) :
  x ∈ ledger_persisted (run store) <->
  x ∈ load_ledger store output_directory
  \/ exists m, m ∈ models fs input_directory /\ x ∈ Glob fs (pattern m).
Proof.
  rewrite ledger_persisted_elem. split; (intros [Hx|H]; [by left|right]).
  - destruct H as ([m files] & Hin & Hx).
    apply sorted_items_elem in Hin as [Hm ->]. by exists m.
  - destruct H as (m & Hm & Hx). exists (m, Glob fs (pattern m)).
    split; [by apply sorted_items_of_model|done].
Qed.

(** X17: the ledger file a run leaves lists the persisted ledger in
    ascending order, each entry once, one per line. *)
Theorem gather_ledger_file_sorted (store : gmap string string) :
  exists lines,
    store_after store !! meta_file output_directory = Some (Py.join NL lines)
    /\ StronglySorted String.le lines
    /\ NoDup lines
    /\ forall x, x ∈ lines <-> x ∈ ledger_persisted (run store).
Proof.
  exists (Py.sorted (elements (ledger_persisted (run store)))). split_and!.
  - apply gather_store_meta.
  - apply sorted_StronglySorted.
  - rewrite PyFacts.sorted_Permutation. apply NoDup_elements.
  - intros x. by rewrite PyFacts.elem_of_sorted, elem_of_elements.
Qed.

(** *** The order of the generations *)

Lemma item_le_total : Total item_le.
Proof. intros x y. unfold item_le. apply (total String.le). Qed.

Lemma item_le_trans : Transitive item_le.
Proof. intros x y z. unfold item_le. apply (transitivity (R:=String.le)). Qed.

Lemma StronglySorted_sublist {A} (R : relation A) (k l : list A) :
  k `sublist_of` l -> StronglySorted R l -> StronglySorted R k.
Proof.
  induction 1 as [|x k l Hsub IH|x k l Hsub IH]; intros Hl; [done| |].
  - apply StronglySorted_inv in Hl as [Hl Hx]. constructor; [by apply IH|].
    apply Forall_forall. intros y Hy.
    eapply Forall_forall in Hx; [exact Hx|]. by eapply elem_of_sublist.
  - apply StronglySorted_inv in Hl as [Hl _]. by apply IH.
Qed.

Lemma StronglySorted_distinct_names (l : list Item) :
  StronglySorted item_le l -> NoDup l.*1 ->
  StronglySorted (fun x y => item_le x y /\ x.1 <> y.1) l.
Proof.
  induction 1 as [|x l Hl IH Hx]; intros Hnd; [constructor|].
  cbn [fmap list_fmap] in Hnd. apply NoDup_cons in Hnd as [Hnotin Hnd].
  constructor; [by apply IH|].
  apply Forall_forall. intros y Hy. split.
  - by eapply Forall_forall in Hx.
  - intros Heq. apply Hnotin. rewrite Heq. by apply list_elem_of_fmap_2.
Qed.

(** The items are taken in ascending order of the model names. *)
Lemma sorted_items_ascending :
  StronglySorted item_le (sorted_items fs input_directory).
Proof.
  unfold sorted_items.
  apply (@StronglySorted_merge_sort _ item_le _ item_le_trans item_le_total).
Qed.

(** X18: the loop takes the items of [model_gamedata] in ascending order
    of the model names, all names distinct, and the generations fed to
    the shuffler follow in that order: each at most once, each with a
    name above the names of those fed before it, and never one without
    record files. *)
Theorem gather_fed_generations (store : gmap string string) :
  fed_to_shuffle (run store) `sublist_of` sorted_items fs input_directory
  /\ NoDup (fed_to_shuffle (run store)).*1
  /\ Forall (fun item : Item => item.2 <> []) (fed_to_shuffle (run store))
  /\ sorted_items fs input_directory
     ≡ₚ map_to_list (model_gamedata fs input_directory)
  /\ StronglySorted (fun x y : Item => String.le x.1 y.1 /\ x.1 <> y.1)
       (sorted_items fs input_directory)
  /\ StronglySorted (fun x y : Item => String.le x.1 y.1 /\ x.1 <> y.1)
       (fed_to_shuffle (run store)).
Proof.
  assert (fed_to_shuffle (run store) `sublist_of` sorted_items fs input_directory)
    as Hsub.
  { unfold gather, gather_loop. cbn [fed_to_shuffle].
    destruct (gather_loop_shuffled_sublist (sorted_items fs input_directory)
                {| already_processed := load_ledger store output_directory;
                   shuffled := []; chunk_ops := [] |}) as (fed & -> & Hfed).
    done. }
  assert (NoDup (fed_to_shuffle (run store)).*1) as Hnd.
  { eapply sublist_NoDup; [apply NoDup_sorted_items|].
    by apply (fmap_sublist fst). }
  split_and!.
  - exact Hsub.
  - exact Hnd.
  - apply Forall_forall. intros [m files] [_ Hnot]%fed_in_items Hnil.
    cbn [snd] in Hnil, Hnot. subst files. apply Hnot. apply empty_subseteq.
  - apply merge_sort_Permutation.
  - apply (StronglySorted_distinct_names _ sorted_items_ascending).
    apply NoDup_sorted_items.
  - apply StronglySorted_distinct_names; [|exact Hnd].
    eapply StronglySorted_sublist; [exact Hsub|apply sorted_items_ascending].
Qed.

(** X19: with paths that are words, running [gather] again on the same
    input tree changes nothing: the second run feeds nothing to the
    shuffler, writes no chunk, and leaves the output side, ledger file
    included, exactly as the first run left it. *)
Theorem gather_idempotent_on_words (store : gmap string string) :
  (forall pat, Forall Py.is_word (Glob fs pat)) ->
  store_after (store_after store) = store_after store
  /\ fed_to_shuffle (run (store_after store)) = []
  /\ chunks_written (fs_ops (run (store_after store))) = []
  /\ ledger_persisted (run (store_after store)) = ledger_persisted (run store).
Proof.
  intros Hwords.
  destruct (gather_rerun_words shuffle_tf_examples chunk_bytes fs input_directory
              output_directory examples_per_record store Hwords)
    as (_ & Hfed & Hchunks & Hledger & Hstore).
  by split_and!.
Qed.

End GatherExtras.

(** X15 on a file that is neither the ledger nor a chunk. *)
Lemma gather_store_frame_witness :
  gather_store Scenario.shuffle_in_order Scenario.names_bytes Scenario.tree_plain
    Scenario.store_one_ledgered "in" "out" 1 !! "out/notes.txt"
  = Scenario.store_one_ledgered !! "out/notes.txt".
Proof.
  refine (proj1 (gather_store_frame Scenario.shuffle_in_order Scenario.names_bytes
                   Scenario.tree_plain "in" "out" 1 Scenario.store_one_ledgered
                   "out/notes.txt" _ _)).
  - vm_compute. discriminate.
  - vm_compute. intros H.
    repeat (apply elem_of_cons in H as [H|H]; [discriminate H|]).
    by apply elem_of_nil in H.
Defined.

(** X19 on a tree without blanks in its paths. *)
Lemma gather_idempotent_on_words_witness :
  gather_store Scenario.shuffle_in_order Scenario.names_bytes Scenario.tree_plain
    (gather_store Scenario.shuffle_in_order Scenario.names_bytes Scenario.tree_plain
       ∅ "in" "out" 1) "in" "out" 1
  = gather_store Scenario.shuffle_in_order Scenario.names_bytes Scenario.tree_plain
      ∅ "in" "out" 1.
Proof.
  exact (proj1 (gather_idempotent_on_words Scenario.shuffle_in_order
                  Scenario.names_bytes Scenario.tree_plain "in" "out" 1 ∅
                  tree_plain_words)).
Defined.

Section GatherModels.
Variable fs : GFile.
Variable input_directory : string.

(** X20: [gather] looks at 50 models at most: the last 50 names of the
    sorted listing of the input directory (all of them when there are
    fewer), each stripped of slashes; every name left out sorts at or
    below every name kept. *)
Theorem gather_models_last_fifty :
  let all := Py.sorted (ListDirectory fs input_directory) in
  let kept := drop (length all - 50) all in
  models fs input_directory = Py.strip "/" <$> kept
  /\ length (models fs input_directory) = (length (ListDirectory fs input_directory) `min` 50)%nat
  /\ take (length all - 50) all ++ kept = all
  /\ Forall (fun x => Forall (String.le x) kept) (take (length all - 50) all).
Proof.
  intros all kept.
  assert (models fs input_directory = Py.strip "/" <$> kept) as Hm.
  { unfold models. fold all. change (-50) with (- Z.of_nat 50).
    rewrite PyFacts.slice_from_neg by lia. done. }
  split_and!.
  - exact Hm.
  - rewrite Hm, length_fmap. subst kept. rewrite length_drop. subst all.
    rewrite PyFacts.sorted_Permutation. lia.
  - apply take_drop.
  - apply sorted_cut.
Qed.

End GatherModels.
